(** * Miro media sharing: the DAAP backend, the sharing manager and the
      HTTP-auth relay

    A shallow embedding of [tv/lib/sharing.py] and
    [tv/lib/dl_daemon/private/httpauth.py].  Python dictionaries are finite
    maps, methods that mutate [self] are functions in a state-and-exception
    monad, and calls into libdaap, the threading module and the daemon
    command channel are recorded in a trace of events. *)

From Stdlib Require Import ZArith List String Ascii Bool Lia.
From stdpp Require Import base gmap strings list fin_maps.
Import ListNotations.

Local Open Scope Z_scope.

(** ** Python values, exceptions and the two monads *)

Module Py.

(** The exceptions the embedded code can raise. *)
Inductive exn : Type :=
| KeyError
| AttributeError
| NameError
| IndexError
| OSError.

Inductive outcome (A : Type) : Type :=
| Ok (a : A)
| Raise (e : exn).
Arguments Ok {A} a.
Arguments Raise {A} e.

Definition obind {A B : Type} (m : outcome A) (k : A -> outcome B) : outcome B :=
  match m with
  | Ok a => k a
  | Raise e => Raise e
  end.

(** Code that mutates an object: the state survives a raised exception as
    it was when the exception left the method. *)
Definition M (S A : Type) : Type := S -> outcome A * S.

Definition ret {S A : Type} (a : A) : M S A := fun s => (Ok a, s).

Definition bind {S A B : Type} (m : M S A) (k : A -> M S B) : M S B :=
  fun s =>
    match m s with
    | (Ok a, s') => k a s'
    | (Raise e, s') => (Raise e, s')
    end.

Definition lift {S A : Type} (o : outcome A) : M S A := fun s => (o, s).

Definition gets {S A : Type} (f : S -> A) : M S A := fun s => (Ok (f s), s).

Definition modify {S : Type} (f : S -> S) : M S unit := fun s => (Ok tt, f s).

(** [for x in l: body x] *)
Fixpoint for_each {S A : Type} (l : list A) (body : A -> M S unit) : M S unit :=
  match l with
  | [] => ret tt
  | x :: l' => bind (body x) (fun _ => for_each l' body)
  end.

(** Modelled from the spec: the wire media-kind tags VIDEO and AUDIO, in the
    code [libdaap.DAAP_MEDIAKIND_VIDEO] and [libdaap.DAAP_MEDIAKIND_AUDIO].
    libdaap is not part of the tree, so the two tags are kept symbolic. *)
Inductive mediakind : Type :=
| DAAP_MEDIAKIND_VIDEO
| DAAP_MEDIAKIND_AUDIO.

(** A Python 2 value.  A byte string and a unicode string are both
    sequences of integers (bytes, respectively code points). *)
Inductive pyval : Type :=
| PyNone
| PyInt (n : Z)
| PyStr (s : list Z)
| PyUnicode (u : list Z)
| PyMediaKind (k : mediakind).

#[export] Instance mediakind_eq_dec : EqDecision mediakind.
Proof. solve_decision. Defined.

#[export] Instance pyval_eq_dec : EqDecision pyval.
Proof. solve_decision. Defined.

#[export] Instance exn_eq_dec : EqDecision exn.
Proof. solve_decision. Defined.

(** A string literal of the source, as a sequence of character codes. *)
Definition chars (s : string) : list Z :=
  List.map (fun a => Z.of_nat (nat_of_ascii a)) (list_ascii_of_string s).

Definition is_ascii (s : list Z) : bool := forallb (fun c => c <? 128) s.

(** [a == b].  A byte string equals a unicode string when it is pure ASCII
    and has the same characters; a byte string that does not decode
    compares unequal. *)
Definition py_eq (a b : pyval) : bool :=
  match a, b with
  | PyStr s, PyUnicode u | PyUnicode u, PyStr s =>
      is_ascii s && bool_decide (s = u)
  | _, _ => bool_decide (a = b)
  end.

(** [bool(v)] *)
Definition truthy (v : pyval) : bool :=
  match v with
  | PyNone => false
  | PyInt n => negb (n =? 0)
  | PyStr s | PyUnicode s => negb (bool_decide (s = []))
  | PyMediaKind _ => true
  end.

(** [u.encode('utf-8')], one code point at a time. *)
Definition utf8_encode_cp (c : Z) : list Z :=
  if c <? 128 then [c]
  else if c <? 2048 then
    [Z.lor 192 (Z.shiftr c 6); Z.lor 128 (Z.land c 63)]
  else if c <? 65536 then
    [Z.lor 224 (Z.shiftr c 12);
     Z.lor 128 (Z.land (Z.shiftr c 6) 63);
     Z.lor 128 (Z.land c 63)]
  else
    [Z.lor 240 (Z.shiftr c 18);
     Z.lor 128 (Z.land (Z.shiftr c 12) 63);
     Z.lor 128 (Z.land (Z.shiftr c 6) 63);
     Z.lor 128 (Z.land c 63)].

Definition encode_utf8 (u : list Z) : list Z := flat_map utf8_encode_cp u.

(** *** String primitives used by [os.path.splitext] *)

Fixpoint rfind_from (p : list Z) (c : Z) (i : Z) (found : Z) : Z :=
  match p with
  | [] => found
  | a :: p' => rfind_from p' c (i + 1) (if a =? c then i else found)
  end.

(** [p.rfind(c)]: the highest index of [c] in [p], or [-1]. *)
Definition rfind (p : list Z) (c : Z) : Z := rfind_from p c 0 (-1).

(** [p[i]] *)
Definition str_index (p : list Z) (i : Z) : outcome Z :=
  let j := if i <? 0 then i + Z.of_nat (length p) else i in
  if j <? 0 then Raise IndexError
  else match p !! Z.to_nat j with
       | Some c => Ok c
       | None => Raise IndexError
       end.

Definition slice_bound (p : list Z) (i : Z) : nat :=
  let n := Z.of_nat (length p) in
  Z.to_nat (Z.min (Z.max (if i <? 0 then i + n else i) 0) n).

(** [p[:i]] and [p[i:]] *)
Definition slice_to (p : list Z) (i : Z) : list Z := take (slice_bound p i) p.
Definition slice_from (p : list Z) (i : Z) : list Z := drop (slice_bound p i) p.

(** The result of [genericpath._splitext]: either [p[:dotIndex], p[dotIndex:]]
    or [p, ''], where [''] is a byte-string literal whatever the type of
    [p]. *)
Inductive split : Type :=
| SplitAt (root ext : list Z)
| NoExt.

(** The loop that skips leading dots.  [fuel] is the number of iterations
    left, [dotIndex - filenameIndex]; the result says whether the loop left
    through its [return]. *)
Fixpoint skip_leading_dots (p : list Z) (extsep dotIndex : Z) (fuel : nat)
    (filenameIndex : Z) : outcome bool :=
  match fuel with
  | O => Ok false
  | S fuel' =>
      if filenameIndex <? dotIndex then
        obind (str_index p filenameIndex) (fun ch =>
          if negb (ch =? extsep) then Ok true
          else skip_leading_dots p extsep dotIndex fuel' (filenameIndex + 1))
      else Ok false
  end.

(** [genericpath._splitext(p, sep, altsep, extsep)], the function behind
    [os.path.splitext] in the standard library of Python 2.6 and 2.7. *)
Definition genericpath_splitext (p : list Z) (sep : Z) (altsep : option Z)
    (extsep : Z) : outcome split :=
  let sepIndex := rfind p sep in
  let sepIndex :=
    match altsep with
    | Some a => Z.max sepIndex (rfind p a)
    | None => sepIndex
    end in
  let dotIndex := rfind p extsep in
  if sepIndex <? dotIndex then
    let filenameIndex := sepIndex + 1 in
    obind (skip_leading_dots p extsep dotIndex
             (Z.to_nat (dotIndex - filenameIndex)) filenameIndex)
      (fun found =>
         if found then Ok (SplitAt (slice_to p dotIndex) (slice_from p dotIndex))
         else Ok NoExt)
  else Ok NoExt.

Definition sep : Z := 47.     (* '/' *)
Definition extsep : Z := 46.  (* '.' *)

(** [os.path.splitext(path)] with [os.path] being [posixpath]. *)
Definition os_path_splitext (path : pyval) : outcome (pyval * pyval) :=
  match path with
  | PyStr s =>
      obind (genericpath_splitext s sep None extsep) (fun r =>
        match r with
        | SplitAt f e => Ok (PyStr f, PyStr e)
        | NoExt => Ok (path, PyStr [])
        end)
  | PyUnicode u =>
      obind (genericpath_splitext u sep None extsep) (fun r =>
        match r with
        | SplitAt f e => Ok (PyUnicode f, PyUnicode e)
        | NoExt => Ok (path, PyStr [])
        end)
  | _ => Raise AttributeError
  end.

(** [e[1:]] *)
Definition slice_from_1 (e : pyval) : outcome pyval :=
  match e with
  | PyStr s => Ok (PyStr (slice_from s 1))
  | PyUnicode u => Ok (PyUnicode (slice_from u 1))
  | _ => Raise AttributeError
  end.

End Py.

Export Py.

Declare Scope py_scope.
Notation "'let*' x ':=' m 'in' k" := (bind m (fun x => k))
  (at level 10, x pattern, m at level 100, k at level 200) : py_scope.
Local Open Scope py_scope.

(** ** The sharing backend: [SharingManagerBackend] *)

Module Backend.

(** One [(tag, value)] attribute of the DAAP format. *)
Definition attribute : Type := string * pyval.

(** The fields of a [messages.ItemInfo] that [make_item_dict] reads. *)
Record ItemInfo : Type := {
  item_id : Z;
  item_name : pyval;
  item_size : pyval;
  item_duration : pyval;
  item_file_type : pyval;
  item_video_path : pyval
}.

(** The fields of a [messages.PlaylistInfo] that [make_daap_playlists]
    reads. *)
Record PlaylistInfo : Type := {
  playlist_id : Z;
  playlist_title : pyval
}.

(** The four class-level dictionaries. *)
Record backend : Type := {
  items : gmap Z (gmap string pyval);
  daapitems : gmap Z (list attribute);
  daap_playlists : gmap Z (list attribute);
  playlist_item_map : gmap Z (list Z)
}.

Definition empty_backend : backend :=
  {| items := ∅; daapitems := ∅; daap_playlists := ∅; playlist_item_map := ∅ |}.

Definition set_items (f : gmap Z (gmap string pyval) -> gmap Z (gmap string pyval))
    (b : backend) : backend :=
  {| items := f (items b); daapitems := daapitems b;
     daap_playlists := daap_playlists b;
     playlist_item_map := playlist_item_map b |}.

Definition set_daapitems (f : gmap Z (list attribute) -> gmap Z (list attribute))
    (b : backend) : backend :=
  {| items := items b; daapitems := f (daapitems b);
     daap_playlists := daap_playlists b;
     playlist_item_map := playlist_item_map b |}.

Definition set_daap_playlists (f : gmap Z (list attribute) -> gmap Z (list attribute))
    (b : backend) : backend :=
  {| items := items b; daapitems := daapitems b;
     daap_playlists := f (daap_playlists b);
     playlist_item_map := playlist_item_map b |}.

(** [d[k]] and [del d[k]] on a dictionary. *)
Definition getitem {K V : Type} `{Countable K} (d : gmap K V) (k : K) : outcome V :=
  match d !! k with
  | Some v => Ok v
  | None => Raise KeyError
  end.

Definition delitem {K V : Type} `{Countable K} (d : gmap K V) (k : K)
    : outcome (gmap K V) :=
  match d !! k with
  | Some _ => Ok (delete k d)
  | None => Raise KeyError
  end.

(** *** [daap_item_fixup] *)

Definition mapping : list (string * string) :=
  [("name", "minm"); ("enclosure_format", "asfm");
   ("size", "assz"); ("duration", "astm")]%string.

(** [(q, v.encode('utf-8'))] when [isinstance(v, unicode)], else [(q, v)]. *)
Definition fixup_attribute (q : string) (v : pyval) : attribute :=
  match v with
  | PyUnicode u => (q, PyStr (encode_utf8 u))
  | _ => (q, v)
  end.

Fixpoint fixup_loop (entry : gmap string pyval) (m : list (string * string))
    (daapitem : list attribute) : outcome (list attribute) :=
  match m with
  | [] => Ok daapitem
  | (p, q) :: m' =>
      obind (getitem entry p) (fun v =>
        fixup_loop entry m' (daapitem ++ [fixup_attribute q v]))
  end.

Definition daap_item_fixup (item_id : Z) (entry : gmap string pyval)
    : outcome (list attribute) :=
  obind (fixup_loop entry mapping []) (fun daapitem =>
    let daapitem := daapitem ++ [("miid"%string, PyInt item_id)] in
    obind (getitem entry "file_type"%string) (fun file_type =>
      if py_eq file_type (PyStr (chars "video")) then
        Ok (daapitem ++ [("aeMK"%string, PyMediaKind DAAP_MEDIAKIND_VIDEO)])
      else
        Ok (daapitem ++ [("aeMK"%string, PyMediaKind DAAP_MEDIAKIND_AUDIO)]))).

(** *** [make_item_dict] *)

(** [dict(name=name, size=size, duration=duration, file_type=file_type,
    path=path, enclosure_format=e)] *)
Definition entry_dict (name size duration file_type path e : pyval)
    : gmap string pyval :=
  <["name"%string := name]>
    (<["size"%string := size]>
      (<["duration"%string := duration]>
        (<["file_type"%string := file_type]>
          (<["path"%string := path]>
            (<["enclosure_format"%string := e]> ∅))))).

(** [f, e = os.path.splitext(path)] followed by [if e: e = e[1:]]. *)
Definition enclosure_format (path : pyval) : outcome pyval :=
  obind (os_path_splitext path) (fun fe =>
    let e := snd fe in
    if truthy e then slice_from_1 e else Ok e).

Definition make_item (x : ItemInfo) : M backend unit :=
  let name := item_name x in
  let size := item_size x in
  let duration := item_duration x in
  let file_type := item_file_type x in
  let path := item_video_path x in
  let* e := lift (enclosure_format path) in
  let* _ := modify (set_items
             (insert (item_id x) (entry_dict name size duration file_type path e))) in
  let* entry := (fun b => (getitem (items b) (item_id x), b)) in
  let* d := lift (daap_item_fixup (item_id x) entry) in
  modify (set_daapitems (insert (item_id x) d)).

Definition make_item_dict (l : list ItemInfo) : M backend unit :=
  for_each l make_item.

Definition handle_item_list (message_items : list ItemInfo) : M backend unit :=
  make_item_dict message_items.

Definition remove_item (x : ItemInfo) : M backend unit :=
  let* _ := (fun b => match delitem (items b) (item_id x) with
                      | Ok d => (Ok tt, set_items (fun _ => d) b)
                      | Raise e => (Raise e, b)
                      end) in
  (fun b => match delitem (daapitems b) (item_id x) with
            | Ok d => (Ok tt, set_daapitems (fun _ => d) b)
            | Raise e => (Raise e, b)
            end).

(** [handle_items_changed(message)] with the three lists of the message. *)
Definition handle_items_changed (added changed removed : list ItemInfo)
    : M backend unit :=
  let* _ := for_each removed remove_item in
  let* _ := make_item_dict added in
  make_item_dict changed.

(** *** Playlists *)

Definition mappings : list (string * string) :=
  [("title", "minm"); ("id", "miid"); ("id", "mper")]%string.

(** [getattr(x, p)] on a playlist record. *)
Definition playlist_getattr (x : PlaylistInfo) (p : string) : outcome pyval :=
  if bool_decide (p = "title"%string) then Ok (playlist_title x)
  else if bool_decide (p = "id"%string) then Ok (PyInt (playlist_id x))
  else Raise AttributeError.

Fixpoint playlist_loop (x : PlaylistInfo) (m : list (string * string))
    (attributes : list attribute) : outcome (list attribute) :=
  match m with
  | [] => Ok attributes
  | (p, q) :: m' =>
      obind (playlist_getattr x p) (fun v =>
        playlist_loop x m' (attributes ++ [fixup_attribute q v]))
  end.

Definition make_daap_playlist (x : PlaylistInfo) : M backend unit :=
  let* attributes := lift (playlist_loop x mappings []) in
  let attributes := attributes ++ [("mpco"%string, PyInt 0)] in
  let attributes := attributes ++ [("mimc"%string, PyInt 0)] in
  modify (set_daap_playlists (insert (playlist_id x) attributes)).

Definition make_daap_playlists (l : list PlaylistInfo) : M backend unit :=
  for_each l make_daap_playlist.

Definition del_playlist (x : PlaylistInfo) : M backend unit :=
  fun b => match delitem (daap_playlists b) (playlist_id x) with
           | Ok d => (Ok tt, set_daap_playlists (fun _ => d) b)
           | Raise e => (Raise e, b)
           end.

Definition handle_playlist_added (added : list PlaylistInfo) : M backend unit :=
  make_daap_playlists added.

Definition handle_playlist_changed (changed : list PlaylistInfo) : M backend unit :=
  let* _ := for_each changed del_playlist in
  make_daap_playlists changed.

Definition handle_playlist_removed (removed : list PlaylistInfo) : M backend unit :=
  for_each removed del_playlist.

(** *** [get_items] *)

(** What [get_items] returns: the DAAP dictionary itself, or the list built
    by the comprehension. *)
Inductive get_items_result : Type :=
| WholeDict (d : gmap Z (list attribute))
| Selected (l : list Z).

(** [x.id] where [x] is a key of [daapitems], an integer: integers have no
    attribute of that name. *)
Definition int_getattr (x : Z) (attr : string) : outcome pyval :=
  if bool_decide (attr = "real"%string) then Ok (PyInt x)
  else if bool_decide (attr = "imag"%string) then Ok (PyInt 0)
  else Raise AttributeError.

(** Reading the bare name [playlist_item_map]: the dictionary is a class
    attribute, and no local, module-level or builtin name is bound to it. *)
Definition load_name_playlist_item_map : outcome (gmap Z (list Z)) :=
  Raise NameError.

(** [x.id in playlist_item_map[playlist_id]], operands left to right. *)
Definition get_items_cond (playlist_id : pyval) (x : Z) : outcome bool :=
  obind (int_getattr x "id") (fun x_id =>
    obind load_name_playlist_item_map (fun m =>
      obind (match playlist_id with
             | PyInt n => getitem m n
             | _ => Raise KeyError
             end) (fun members =>
        Ok (match x_id with
            | PyInt n => bool_decide (n ∈ members)
            | _ => false
            end)))).

(** [[x for x in keys if cond x]] *)
Fixpoint comprehension (keys : list Z) (cond : Z -> outcome bool)
    : outcome (list Z) :=
  match keys with
  | [] => Ok []
  | x :: keys' =>
      obind (cond x) (fun c =>
        obind (comprehension keys' cond) (fun l =>
          Ok (if c then x :: l else l)))
  end.

Definition get_items (playlist_id : pyval) (b : backend) : outcome get_items_result :=
  if negb (truthy playlist_id) then Ok (WholeDict (daapitems b))
  else
    obind (comprehension (fst <$> map_to_list (daapitems b))
             (get_items_cond playlist_id))
      (fun l => Ok (Selected l)).

(** *** The catalog feed *)

(** The two messages of the catalog feed, with the lists they carry. *)
Inductive message : Type :=
| ItemList (l : list ItemInfo)
| ItemsChanged (added changed removed : list ItemInfo).

Definition deliver (m : message) : M backend unit :=
  match m with
  | ItemList l => handle_item_list l
  | ItemsChanged added changed removed => handle_items_changed added changed removed
  end.

(** Messages are delivered one after the other; an exception ends the
    handler that raised it and the dictionaries stay as it left them. *)
Fixpoint feed (ms : list message) (b : backend) : backend :=
  match ms with
  | [] => b
  | m :: ms' => feed ms' (snd (deliver m b))
  end.

(** Every entry has its translation and only entries have one. *)
Definition translated (b : backend) : Prop :=
  forall k,
    match items b !! k with
    | Some entry =>
        exists d, daap_item_fixup k entry = Ok d /\ daapitems b !! k = Some d
    | None => daapitems b !! k = None
    end.

(** *** The extension as the specification words it *)

(** The text after the last [c] of [s], if [s] has a [c]. *)
Fixpoint after_last (c : Z) (s : list Z) : option (list Z) :=
  match s with
  | [] => None
  | a :: s' =>
      match after_last c s' with
      | Some t => Some t
      | None => if a =? c then Some s' else None
      end
  end.

Definition final_segment (p : list Z) : list Z :=
  match after_last sep p with
  | Some seg => seg
  | None => p
  end.

(** "The extension equals the text after the last '.' of the final path
    segment", empty when that segment has no '.'. *)
Definition spec_extension (p : list Z) : list Z :=
  match after_last extsep (final_segment p) with
  | Some ext => ext
  | None => []
  end.

(** The extension stored for [x] once [make_item_dict] has handled it. *)
Definition stored_extension (x : ItemInfo) (b : backend) : option pyval :=
  match items (snd (make_item x b)) !! item_id x with
  | Some entry => entry !! "enclosure_format"%string
  | None => None
  end.

(** Items and playlists used in the examples. *)
Definition movie : ItemInfo :=
  {| item_id := 1; item_name := PyUnicode (chars "Movie");
     item_size := PyInt 1024; item_duration := PyInt 90;
     item_file_type := PyUnicode (chars "video");
     item_video_path := PyStr (chars "/home/miro/movie.mp4") |}.

Definition song : ItemInfo :=
  {| item_id := 2; item_name := PyUnicode (chars "Song");
     item_size := PyInt 512; item_duration := PyNone;
     item_file_type := PyUnicode (chars "audio");
     item_video_path := PyStr (chars "/home/miro/song") |}.

Definition movie_renamed : ItemInfo :=
  {| item_id := 1; item_name := PyUnicode (chars "Film");
     item_size := PyInt 2048; item_duration := PyInt 91;
     item_file_type := PyUnicode (chars "video");
     item_video_path := PyStr (chars "/home/miro/film.avi") |}.

Definition favourites : PlaylistInfo :=
  {| playlist_id := 7; playlist_title := PyUnicode (chars "Favourites") |}.

End Backend.

(** ** The sharing manager: [SharingManager] *)

Module Manager.

(** Calls that leave the process: libdaap and the listener thread.
    A handle is the integer that names a server or an mDNS registration. *)
Inductive event : Type :=
| MakeDaapServer (name : pyval) (result : outcome Z)
| ThreadStart (server : Z)
| ServerShutdown (server : Z)
| ThreadJoin (server : Z)
| InstallMdns (name : pyval) (result : outcome Z)
| UninstallMdns (ref : Z).

(** The attributes of the instance ([None] is an attribute that does not
    exist, after [del] or before the first assignment; a thread is named by
    the server it runs) and the trace of calls made so far. *)
Record world : Type := {
  sharing : bool;
  discoverable : bool;
  mdns_ref : option Z;
  server : option Z;
  thread : option Z;
  trace : list event
}.

(** What the outside answers during one call of [twiddle_sharing]: the
    three preferences, and what [libdaap.make_daap_server] and
    [libdaap.install_mdns] return or raise. *)
Record env : Type := {
  SHARE_MEDIA : bool;
  SHARE_DISCOVERABLE : bool;
  SHARE_NAME : pyval;
  make_daap_server : outcome Z;
  install_mdns : outcome Z
}.

Definition set_sharing (v : bool) (w : world) : world :=
  {| sharing := v; discoverable := discoverable w; mdns_ref := mdns_ref w;
     server := server w; thread := thread w; trace := trace w |}.

Definition set_discoverable (v : bool) (w : world) : world :=
  {| sharing := sharing w; discoverable := v; mdns_ref := mdns_ref w;
     server := server w; thread := thread w; trace := trace w |}.

Definition set_mdns_ref (v : option Z) (w : world) : world :=
  {| sharing := sharing w; discoverable := discoverable w; mdns_ref := v;
     server := server w; thread := thread w; trace := trace w |}.

Definition set_server (v : option Z) (w : world) : world :=
  {| sharing := sharing w; discoverable := discoverable w; mdns_ref := mdns_ref w;
     server := v; thread := thread w; trace := trace w |}.

Definition set_thread (v : option Z) (w : world) : world :=
  {| sharing := sharing w; discoverable := discoverable w; mdns_ref := mdns_ref w;
     server := server w; thread := v; trace := trace w |}.

Definition emit (ev : event) : M world unit :=
  modify (fun w =>
    {| sharing := sharing w; discoverable := discoverable w; mdns_ref := mdns_ref w;
       server := server w; thread := thread w; trace := trace w ++ [ev] |}).

(** Reading and deleting an attribute that may not exist. *)
Definition getattr (f : world -> option Z) : M world Z :=
  fun w => match f w with
           | Some v => (Ok v, w)
           | None => (Raise AttributeError, w)
           end.

Definition delattr (f : world -> option Z) (set : option Z -> world -> world)
    : M world unit :=
  fun w => match f w with
           | Some _ => (Ok tt, set None w)
           | None => (Raise AttributeError, w)
           end.

(** [try: body except OSError: handler] *)
Definition try_except_OSError {A : Type} (body handler : M world A) : M world A :=
  fun w => match body w with
           | (Raise OSError, w') => handler w'
           | r => r
           end.

Definition enable_discover (e : env) : M world unit :=
  let name := SHARE_NAME e in
  let* _ := emit (InstallMdns name (install_mdns e)) in
  let* ref := lift (install_mdns e) in
  let* _ := modify (set_mdns_ref (Some ref)) in
  modify (set_discoverable true).

Definition disable_discover : M world unit :=
  let* _ := modify (set_discoverable false) in
  let* ref := getattr mdns_ref in
  let* _ := emit (UninstallMdns ref) in
  delattr mdns_ref set_mdns_ref.

Definition enable_sharing (e : env) : M world bool :=
  let* _ :=
    try_except_OSError
      (let name := SHARE_NAME e in
       let* _ := emit (MakeDaapServer name (make_daap_server e)) in
       let* srv := lift (make_daap_server e) in
       let* _ := modify (set_server (Some srv)) in
       let* _ := modify (set_thread (Some srv)) in
       let* _ := emit (ThreadStart srv) in
       modify (set_sharing true))
      (modify (set_sharing false)) in
  gets sharing.

Definition disable_sharing : M world unit :=
  let* _ := modify (set_sharing false) in
  let* srv := getattr server in
  let* _ := emit (ServerShutdown srv) in
  let* thr := getattr thread in
  let* _ := emit (ThreadJoin thr) in
  let* _ := delattr thread set_thread in
  delattr server set_server.

(** [twiddle_sharing]; the first block yields [false] when it leaves the
    method through its [return]. *)
Definition twiddle_sharing (e : env) : M world unit :=
  let sharing_pref := SHARE_MEDIA e in
  let discoverable_pref := SHARE_DISCOVERABLE e in
  let* self_sharing := gets sharing in
  let* go_on :=
    if negb (eqb sharing_pref self_sharing) then
      if sharing_pref then enable_sharing e
      else
        let* _ := disable_discover in
        let* _ := disable_sharing in
        ret true
    else ret true in
  if negb go_on then ret tt
  else
    let* self_sharing := gets sharing in
    if negb self_sharing then ret tt
    else
      let* self_discoverable := gets discoverable in
      if negb (eqb discoverable_pref self_discoverable) then
        if discoverable_pref then enable_discover e
        else disable_discover
      else ret tt.

(** The attributes set by [__init__] before it calls [twiddle_sharing]. *)
Definition init : world :=
  {| sharing := false; discoverable := false; mdns_ref := None;
     server := None; thread := None; trace := [] |}.

Definition on_config_changed (e : env) : M world unit := twiddle_sharing e.

(** The life of a manager: [__init__] runs [twiddle_sharing] once, then
    every configuration change runs it again.  An exception that leaves
    [twiddle_sharing] ends that call only. *)
Fixpoint run (es : list env) (w : world) : world :=
  match es with
  | [] => w
  | e :: es' => run es' (snd (on_config_changed e w))
  end.

Definition is_listener_event (ev : event) : bool :=
  match ev with
  | MakeDaapServer _ _ | ThreadStart _ | ServerShutdown _ | ThreadJoin _ => true
  | InstallMdns _ _ | UninstallMdns _ => false
  end.

End Manager.

(** ** The HTTP-auth relay: [httpauth.py] *)

Module HttpAuth.

Section WithCallback.

(** The callables handed to the relay. *)
Context {callback : Type}.

(** Commands sent to the daemon, and calls of a pending callback.  The
    identifier under which a callback was found is recorded with its
    call. *)
Inductive event : Type :=
| FindHTTPAuthCommand (id : Z) (host path : pyval)
| AskForHTTPAuthCommand (id : Z) (host path authScheme : pyval)
| Called (id : Z) (cb : callback) (authHeader : pyval).

(** The two module-level objects: the next value of [itertools.count()]
    and the table of pending callbacks. *)
Record relay : Type := {
  requestIdGenerator : Z;
  waitingHTTPAuthCallbacks : gmap Z callback;
  log : list event
}.

Definition start : relay :=
  {| requestIdGenerator := 0; waitingHTTPAuthCallbacks := ∅; log := [] |}.

(** [requestIdGenerator.next()] *)
Definition next : M relay Z :=
  fun r => (Ok (requestIdGenerator r),
            {| requestIdGenerator := requestIdGenerator r + 1;
               waitingHTTPAuthCallbacks := waitingHTTPAuthCallbacks r;
               log := log r |}).

(** [waitingHTTPAuthCallbacks[id] = callback] *)
Definition setitem (id : Z) (cb : callback) : M relay unit :=
  modify (fun r =>
    {| requestIdGenerator := requestIdGenerator r;
       waitingHTTPAuthCallbacks := <[id := cb]> (waitingHTTPAuthCallbacks r);
       log := log r |}).

(** [waitingHTTPAuthCallbacks.pop(id_)] *)
Definition pop (id_ : Z) : M relay callback :=
  fun r => match waitingHTTPAuthCallbacks r !! id_ with
           | Some cb =>
               (Ok cb,
                {| requestIdGenerator := requestIdGenerator r;
                   waitingHTTPAuthCallbacks := delete id_ (waitingHTTPAuthCallbacks r);
                   log := log r |})
           | None => (Raise KeyError, r)
           end.

Definition emit (ev : event) : M relay unit :=
  modify (fun r =>
    {| requestIdGenerator := requestIdGenerator r;
       waitingHTTPAuthCallbacks := waitingHTTPAuthCallbacks r;
       log := log r ++ [ev] |}).

Definition handle_http_auth_response (id_ : Z) (authHeader : pyval) : M relay unit :=
  let* cb := pop id_ in
  emit (Called id_ cb authHeader).

Definition find_http_auth (cb : callback) (host path : pyval) : M relay unit :=
  let* id := next in
  let* _ := setitem id cb in
  emit (FindHTTPAuthCommand id host path).

Definition askForHTTPAuth (cb : callback) (host path authScheme : pyval)
    : M relay unit :=
  let* id := next in
  let* _ := setitem id cb in
  emit (AskForHTTPAuthCommand id host path authScheme).

(** One call into the module. *)
Inductive call : Type :=
| Find (cb : callback) (host path : pyval)
| Ask (cb : callback) (host path authScheme : pyval)
| Response (id_ : Z) (authHeader : pyval).

Definition step (c : call) : M relay unit :=
  match c with
  | Find cb host path => find_http_auth cb host path
  | Ask cb host path authScheme => askForHTTPAuth cb host path authScheme
  | Response id_ authHeader => handle_http_auth_response id_ authHeader
  end.

Fixpoint run (cs : list call) (r : relay) : relay :=
  match cs with
  | [] => r
  | c :: cs' => run cs' (snd (step c r))
  end.

(** The identifiers under which callbacks were registered, oldest
    first, and how often the callback of [id] was called. *)
Definition issued (ev : event) : list Z :=
  match ev with
  | FindHTTPAuthCommand id _ _ | AskForHTTPAuthCommand id _ _ _ => [id]
  | Called _ _ _ => []
  end.

Definition is_call_of (id : Z) (ev : event) : bool :=
  match ev with
  | Called id' _ _ => bool_decide (id' = id)
  | _ => false
  end.

Definition times_called (id : Z) (l : list event) : nat :=
  length (filter (fun ev => is_call_of id ev = true) l).

End WithCallback.

Arguments event : clear implicits.
Arguments relay : clear implicits.
Arguments call : clear implicits.

End HttpAuth.

(** ** The shapes a manager can be in *)

Module Shape.
Import Manager.

Definition stopped (tr : list event) : world :=
  {| sharing := false; discoverable := false; mdns_ref := None;
     server := None; thread := None; trace := tr |}.

Definition running (h : Z) (tr : list event) : world :=
  {| sharing := true; discoverable := false; mdns_ref := None;
     server := Some h; thread := Some h; trace := tr |}.

Definition advertised (h r : Z) (tr : list event) : world :=
  {| sharing := true; discoverable := true; mdns_ref := Some r;
     server := Some h; thread := Some h; trace := tr |}.

Inductive shaped (w : world) : Prop :=
| shaped_stopped : w = stopped (trace w) -> shaped w
| shaped_running h : w = running h (trace w) -> shaped w
| shaped_advertised h r : w = advertised h r (trace w) -> shaped w.

(** Preferences and answers used in the examples. *)
Definition share_name : pyval := PyStr (chars "Miro Share").

Definition prefs_on_discoverable : env :=
  {| SHARE_MEDIA := true; SHARE_DISCOVERABLE := true; SHARE_NAME := share_name;
     make_daap_server := Ok 1; install_mdns := Ok 2 |}.

Definition prefs_on_hidden : env :=
  {| SHARE_MEDIA := true; SHARE_DISCOVERABLE := false; SHARE_NAME := share_name;
     make_daap_server := Ok 1; install_mdns := Ok 2 |}.

Definition prefs_off_discoverable : env :=
  {| SHARE_MEDIA := false; SHARE_DISCOVERABLE := true; SHARE_NAME := share_name;
     make_daap_server := Ok 1; install_mdns := Ok 2 |}.

Definition prefs_off : env :=
  {| SHARE_MEDIA := false; SHARE_DISCOVERABLE := false; SHARE_NAME := share_name;
     make_daap_server := Ok 1; install_mdns := Ok 2 |}.

Definition prefs_on_port_taken : env :=
  {| SHARE_MEDIA := true; SHARE_DISCOVERABLE := true; SHARE_NAME := share_name;
     make_daap_server := Raise OSError; install_mdns := Ok 2 |}.

End Shape.

(** ** What stays true of the relay *)

Module RelayInv.
Import HttpAuth.

Record consistent {C : Type} (r : relay C) : Prop := {
  counter_nonneg : 0 <= requestIdGenerator r;
  issued_in_order :
    flat_map issued (log r) = seqZ 0 (requestIdGenerator r);
  pending_uncalled :
    forall id, is_Some (waitingHTTPAuthCallbacks r !! id) ->
               0 <= id < requestIdGenerator r /\ times_called id (log r) = 0%nat;
  unissued_uncalled :
    forall id, requestIdGenerator r <= id -> times_called id (log r) = 0%nat;
  called_once : forall id, (times_called id (log r) <= 1)%nat
}.

(** Callbacks and calls used in the examples. *)
Definition host : pyval := PyStr (chars "example.org").
Definition path : pyval := PyStr (chars "/feed").
Definition header : pyval := PyStr (chars "Basic dXNlcjpwdw==").

Definition two_requests_one_answer : list (call nat) :=
  [Find 10%nat host path; Ask 11%nat host path (PyStr (chars "Basic"));
   Response 0 header].

End RelayInv.

(** ** The queries of the backend and the playlist tables *)

Module Queries.
Import Backend.

Definition set_playlist_item_map (f : gmap Z (list Z) -> gmap Z (list Z))
    (b : backend) : backend :=
  {| items := items b; daapitems := daapitems b;
     daap_playlists := daap_playlists b;
     playlist_item_map := f (playlist_item_map b) |}.

(** [get_filepath(itemid)]: [self.items[itemid]['path']] *)
Definition get_filepath (itemid : Z) (b : backend) : outcome pyval :=
  obind (getitem (items b) itemid) (fun entry => getitem entry "path"%string).

(** The loop of [get_playlists] over the keys of [daap_playlists]. *)
Fixpoint get_playlists_loop (keys : list Z) (b : backend)
    (playlists : list (string * list attribute))
    : outcome (list (string * list attribute)) :=
  match keys with
  | [] => Ok playlists
  | k :: keys' =>
      obind (getitem (daap_playlists b) k) (fun a =>
        get_playlists_loop keys' b (playlists ++ [("mlit"%string, a)]))
  end.

Definition get_playlists (b : backend) : outcome (list (string * list attribute)) :=
  get_playlists_loop (fst <$> map_to_list (daap_playlists b)) b [].

(** [populate_playlists].  The two views of the database are arguments:
    [saved] is [playlist.SavedPlaylist.make_view()], and [playlist_view k]
    is the list of the [item_id]s of
    [playlist.PlaylistItemMap.playlist_view(k)]. *)
Definition populate_playlists (saved : list PlaylistInfo) (playlist_view : Z -> list Z)
    : M backend unit :=
  let* _ := make_daap_playlists saved in
  let* keys := gets (fun b => fst <$> map_to_list (daap_playlists b)) in
  for_each keys (fun playlist_id =>
    modify (set_playlist_item_map (insert playlist_id (playlist_view playlist_id)))).

(** One notification of the playlist feed. *)
Inductive notification : Type :=
| PlaylistsAdded (l : list PlaylistInfo)
| PlaylistsChanged (l : list PlaylistInfo)
| PlaylistsRemoved (l : list PlaylistInfo).

Definition notify (n : notification) : M backend unit :=
  match n with
  | PlaylistsAdded l => handle_playlist_added l
  | PlaylistsChanged l => handle_playlist_changed l
  | PlaylistsRemoved l => handle_playlist_removed l
  end.

(** A path that [os.path.splitext] accepts. *)
Definition is_text (v : pyval) : bool :=
  match v with
  | PyStr _ | PyUnicode _ => true
  | _ => false
  end.

(** The characters of a string value. *)
Definition text (v : pyval) : list Z :=
  match v with
  | PyStr s | PyUnicode s => s
  | _ => []
  end.

(** The entry [make_item_dict] builds for [x] when its path has extension
    [e]. *)
Definition entry_of (x : ItemInfo) (e : pyval) : gmap string pyval :=
  entry_dict (item_name x) (item_size x) (item_duration x) (item_file_type x)
    (item_video_path x) e.

(** Every stored entry was built by [make_item_dict] from a string path. *)
Definition entries_built (b : backend) : Prop :=
  forall k entry,
    items b !! k = Some entry ->
    exists x e, entry = entry_of x e /\ is_text (item_video_path x) = true.

(** The identifiers a catalog message names. *)
Definition touched (m : message) : list Z :=
  match m with
  | ItemList l => item_id <$> l
  | ItemsChanged added changed removed =>
      item_id <$> (removed ++ added ++ changed)
  end.

(** The attributes [make_daap_playlists] stores for [x]. *)
Definition playlist_attributes (x : PlaylistInfo) : list attribute :=
  [fixup_attribute "minm" (playlist_title x);
   ("miid"%string, PyInt (playlist_id x));
   ("mper"%string, PyInt (playlist_id x));
   ("mpco"%string, PyInt 0);
   ("mimc"%string, PyInt 0)].

(** A table after the playlists of [l] were written to it, in order, and
    after they were deleted from it. *)
Definition overlay (l : list PlaylistInfo) (m : gmap Z (list attribute))
    : gmap Z (list attribute) :=
  foldl (fun m x => <[playlist_id x := playlist_attributes x]> m) m l.

Definition prune (l : list PlaylistInfo) (m : gmap Z (list attribute))
    : gmap Z (list attribute) :=
  foldl (fun m x => delete (playlist_id x) m) m l.

(** The membership table after the playlists [ks] were looked up in the
    database. *)
Definition refill (playlist_view : Z -> list Z) (ks : list Z) (m : gmap Z (list Z))
    : gmap Z (list Z) :=
  foldl (fun m k => <[k := playlist_view k]> m) m ks.

(** The five keys [daap_item_fixup] reads. *)
Definition fixup_keys : list string :=
  ["name"; "enclosure_format"; "size"; "duration"; "file_type"]%string.

Definition is_unicode (v : pyval) : bool :=
  match v with
  | PyUnicode _ => true
  | _ => false
  end.

Definition no_path : ItemInfo :=
  {| item_id := 3; item_name := PyUnicode (chars "Pending");
     item_size := PyInt 0; item_duration := PyNone;
     item_file_type := PyUnicode (chars "video");
     item_video_path := PyNone |}.

Definition road_trip : PlaylistInfo :=
  {| playlist_id := 8; playlist_title := PyStr (chars "Road trip") |}.

End Queries.

(** ** What the manager holds outside the process *)

Module Protocol.
Import Manager.

(** What a trace leaves behind: the server made and not yet shut down, the
    thread started and not yet joined, the mDNS registration not yet
    withdrawn. *)
Record outside : Type := {
  listener : option Z;
  worker : option Z;
  advert : option Z
}.

Definition nothing : outside :=
  {| listener := None; worker := None; advert := None |}.

Definition present {A : Type} (o : option A) : bool :=
  match o with
  | Some _ => true
  | None => false
  end.

(** One event, accepted only when it is in order: a server is made only
    when none is up; a thread is started only for the server that is up; an
    mDNS registration is installed only while server and thread are up and
    nothing is registered; it is withdrawn only by its own reference; the
    server is shut down only when nothing is registered any more; the thread
    is joined only after the shutdown. *)
Definition follow (o : outside) (ev : event) : option outside :=
  match ev with
  | MakeDaapServer _ (Ok h) =>
      if present (listener o) then None
      else Some {| listener := Some h; worker := worker o; advert := advert o |}
  | MakeDaapServer _ (Raise _) =>
      if present (listener o) then None else Some o
  | ThreadStart h =>
      if bool_decide (listener o = Some h) && negb (present (worker o))
      then Some {| listener := listener o; worker := Some h; advert := advert o |}
      else None
  | InstallMdns _ (Ok r) =>
      if present (listener o) && present (worker o) && negb (present (advert o))
      then Some {| listener := listener o; worker := worker o; advert := Some r |}
      else None
  | InstallMdns _ (Raise _) =>
      if present (listener o) && present (worker o) && negb (present (advert o))
      then Some o
      else None
  | UninstallMdns r =>
      if bool_decide (advert o = Some r)
      then Some {| listener := listener o; worker := worker o; advert := None |}
      else None
  | ServerShutdown h =>
      if bool_decide (listener o = Some h) && negb (present (advert o))
      then Some {| listener := None; worker := worker o; advert := advert o |}
      else None
  | ThreadJoin h =>
      if bool_decide (worker o = Some h) && negb (present (listener o))
      then Some {| listener := listener o; worker := None; advert := advert o |}
      else None
  end.

Fixpoint replay (o : outside) (tr : list event) : option outside :=
  match tr with
  | [] => Some o
  | ev :: tr' =>
      match follow o ev with
      | Some o' => replay o' tr'
      | None => None
      end
  end.

(** What the attributes of the manager say is held outside. *)
Definition held (w : world) : outside :=
  {| listener := server w; worker := thread w; advert := mdns_ref w |}.

(** A preference change that asks for more than libdaap gives. *)
Definition prefs_on_no_multicast : env :=
  {| SHARE_MEDIA := true; SHARE_DISCOVERABLE := true;
     SHARE_NAME := Shape.share_name;
     make_daap_server := Ok 1; install_mdns := Raise OSError |}.

End Protocol.

(** ** Requests issued, pending and answered *)

Module Ledger.
Import HttpAuth.

(** Whether a call is a response for [id]. *)
Definition answers {C : Type} (id : Z) (c : call C) : bool :=
  match c with
  | Response id' _ => bool_decide (id' = id)
  | _ => false
  end.

(** Every identifier handed out so far that is not pending has been
    answered, and nothing was called for a negative identifier. *)
Definition settled {C : Type} (r : relay C) : Prop :=
  (forall id,
      0 <= id < requestIdGenerator r ->
      waitingHTTPAuthCallbacks r !! id = None ->
      times_called id (log r) = 1%nat)
  /\ (forall id, id < 0 -> times_called id (log r) = 0%nat).

End Ledger.

(** * Properties *)

(** ** The sharing manager *)

Section ManagerFacts.
Import Manager Shape.

Lemma shaped_init : shaped init.
Proof. apply shaped_stopped. reflexivity. Qed.

Ltac crunch_env e :=
  destruct e as [sm sd nm [hs | []] [rf | []]]; destruct sm, sd.

Lemma shaped_twiddle (e : env) (w : world) :
  shaped w -> shaped (snd (twiddle_sharing e w)).
Proof.
  intros [Hw | h Hw | h r Hw]; rewrite Hw; generalize (trace w); intros tr;
    crunch_env e; cbn;
    first [ apply shaped_stopped; reflexivity
          | eapply shaped_running; reflexivity
          | eapply shaped_advertised; reflexivity ].
Qed.

Lemma shaped_run (es : list env) : forall w, shaped w -> shaped (run es w).
Proof.
  induction es as [| e es IH]; intros w Hw; cbn; [exact Hw |].
  apply IH. apply shaped_twiddle. exact Hw.
Qed.

Lemma shaped_reachable (es : list env) : shaped (run es init).
Proof. apply shaped_run, shaped_init. Qed.

(** C1: in every state a manager can reach, [discoverable] implies
    [sharing]; reconciling while stopped with sharing off returns without
    touching discovery; and turning sharing off while discoverable
    withdraws the mDNS registration first, then shuts the server down and
    joins its thread. *)
Theorem discovery_requires_sharing (es : list env) :
  let w := run es init in
  (discoverable w = true -> sharing w = true)
  /\ (forall e, sharing w = false -> SHARE_MEDIA e = false ->
        twiddle_sharing e w = (Ok tt, w))
  /\ (forall e, sharing w = true -> discoverable w = true ->
        SHARE_MEDIA e = false ->
        exists r h,
          mdns_ref w = Some r /\ server w = Some h /\
          twiddle_sharing e w
          = (Ok tt, stopped (trace w ++ [UninstallMdns r; ServerShutdown h; ThreadJoin h]))).
Proof.
  intros w. pose proof (shaped_reachable es) as Hs. fold w in Hs.
  clearbody w. split; [| split].
  - destruct Hs as [Hw | h Hw | h r Hw]; rewrite Hw; cbn; congruence.
  - intros e Hoff Hpref.
    destruct Hs as [Hw | h Hw | h r Hw]; rewrite Hw in Hoff |- *;
      cbn in Hoff; try discriminate.
    destruct e as [sm sd nm mk im]; cbn in Hpref; subst sm.
    reflexivity.
  - intros e Hon Hdisc Hpref.
    destruct Hs as [Hw | h Hw | h r Hw]; rewrite Hw in Hdisc |- *;
      cbn in Hdisc; try discriminate.
    destruct e as [sm sd nm mk im]; cbn in Hpref; subst sm.
    exists r, h. cbn. repeat split. rewrite <- !app_assoc. reflexivity.
Qed.

Lemma discovery_requires_sharing_witness :
  sharing (run [prefs_on_discoverable] init) = true
  /\ twiddle_sharing prefs_off_discoverable (run [] init) = (Ok tt, run [] init)
  /\ exists r h,
       mdns_ref (run [prefs_on_discoverable] init) = Some r /\
       server (run [prefs_on_discoverable] init) = Some h /\
       twiddle_sharing prefs_off (run [prefs_on_discoverable] init)
       = (Ok tt, stopped (trace (run [prefs_on_discoverable] init)
                          ++ [UninstallMdns r; ServerShutdown h; ThreadJoin h])).
Proof.
  split; [| split].
  - apply (discovery_requires_sharing [prefs_on_discoverable]). reflexivity.
  - apply (discovery_requires_sharing []); reflexivity.
  - apply (discovery_requires_sharing [prefs_on_discoverable]); reflexivity.
Defined.

Lemma enable_sharing_OSError (e : env) (w : world) :
  make_daap_server e = Raise OSError ->
  enable_sharing e w
  = (Ok false,
     set_sharing false
       {| sharing := sharing w; discoverable := discoverable w;
          mdns_ref := mdns_ref w; server := server w; thread := thread w;
          trace := trace w ++ [MakeDaapServer (SHARE_NAME e) (Raise OSError)] |}).
Proof.
  intros Hmk. unfold enable_sharing, try_except_OSError, bind, emit, modify, lift, gets.
  cbn. rewrite Hmk. reflexivity.
Qed.

(** C2: when the bind fails with an OS error while the session is stopped,
    [enable_sharing] returns false, the session stays stopped with no
    server and no thread, exactly one bind attempt and nothing else is made
    (no thread is started, nothing is retried), and [twiddle_sharing]
    returns at once with that same state. *)
Theorem bind_failure_leaves_stopped (es : list env) (e : env) :
  let w := run es init in
  sharing w = false ->
  SHARE_MEDIA e = true ->
  make_daap_server e = Raise OSError ->
  let w' := snd (enable_sharing e w) in
  fst (enable_sharing e w) = Ok false
  /\ sharing w' = false
  /\ server w' = None
  /\ thread w' = None
  /\ discoverable w' = false
  /\ trace w' = trace w ++ [MakeDaapServer (SHARE_NAME e) (Raise OSError)]
  /\ twiddle_sharing e w = (Ok tt, w').
Proof.
  intros w Hoff Hpref Hmk.
  pose proof (shaped_reachable es) as Hs. fold w in Hs. clearbody w.
  rewrite (enable_sharing_OSError e w Hmk). cbn [fst snd].
  destruct Hs as [Hw | h Hw | h r Hw]; rewrite Hw in Hoff |- *;
    cbn in Hoff; try discriminate.
  destruct e as [sm sd nm mk im]; cbn in Hpref, Hmk; subst sm mk.
  cbn. repeat split.
Qed.

Lemma bind_failure_leaves_stopped_witness :
  fst (enable_sharing prefs_on_port_taken (run [prefs_off] init)) = Ok false
  /\ thread (snd (enable_sharing prefs_on_port_taken (run [prefs_off] init))) = None
  /\ twiddle_sharing prefs_on_port_taken (run [prefs_off] init)
     = (Ok tt, snd (enable_sharing prefs_on_port_taken (run [prefs_off] init))).
Proof.
  destruct (bind_failure_leaves_stopped [prefs_off] prefs_on_port_taken
              eq_refl eq_refl eq_refl) as (H1 & _ & _ & H4 & _ & _ & H7).
  exact (conj H1 (conj H4 H7)).
Defined.

Lemma disable_discover_without_ref (w : world) :
  mdns_ref w = None ->
  disable_discover w = (Raise AttributeError, set_discoverable false w).
Proof.
  intros Hnone. unfold disable_discover, bind, modify, getattr. cbn.
  rewrite Hnone. reflexivity.
Qed.

(** C6: withdrawing discovery a second time.  The first [disable_discover]
    succeeds and deletes [mdns_ref]; the second one raises AttributeError
    when it reads the deleted attribute.  The same happens when sharing is
    switched off on a manager that is running but not discoverable:
    [twiddle_sharing] raises before [disable_sharing] and the listener
    stays up. *)
Theorem disable_discover_twice_raises :
  let w := run [prefs_on_discoverable] init in
  let w1 := snd (disable_discover w) in
  disable_discover w = (Ok tt, running 1 (trace w ++ [UninstallMdns 2]))
  /\ disable_discover w1 = (Raise AttributeError, w1)
  /\ twiddle_sharing prefs_off (run [prefs_on_hidden] init)
     = (Raise AttributeError, run [prefs_on_hidden] init)
  /\ sharing (run [prefs_on_hidden; prefs_off] init) = true.
Proof. cbn. repeat split. Qed.

(** C9: reconciling with share-enabled true while sharing is already
    active keeps [sharing], the server and the thread as they are and
    makes no call to the listener (no bind, no thread start, no shutdown,
    no join); the call returns normally unless [libdaap.install_mdns]
    itself raises; and when the discoverable preference also matches, the
    whole state is unchanged. *)
Theorem enable_while_running_is_noop (es : list env) (e : env) :
  let w := run es init in
  sharing w = true ->
  SHARE_MEDIA e = true ->
  let w' := snd (twiddle_sharing e w) in
  sharing w' = true
  /\ server w' = server w
  /\ thread w' = thread w
  /\ (exists evs, trace w' = trace w ++ evs
                  /\ forallb (fun ev => negb (is_listener_event ev)) evs = true)
  /\ (fst (twiddle_sharing e w) = Ok tt
      \/ exists ex, install_mdns e = Raise ex
                    /\ fst (twiddle_sharing e w) = Raise ex)
  /\ (SHARE_DISCOVERABLE e = discoverable w -> twiddle_sharing e w = (Ok tt, w)).
Proof.
  intros w Hon Hpref.
  pose proof (shaped_reachable es) as Hs. fold w in Hs. clearbody w.
  destruct Hs as [Hw | h Hw | h r Hw]; rewrite Hw in Hon |- *;
    cbn in Hon; try discriminate; generalize (trace w); intros tr;
    destruct e as [sm sd nm mk [rf | ex]]; cbn in Hpref; subst sm;
    destruct sd; cbn;
    (split; [reflexivity |]); (split; [reflexivity |]); (split; [reflexivity |]);
    (split; [first [ exists []; rewrite app_nil_r; split; reflexivity
                   | eexists; split; reflexivity ] |]);
    (split; [first [ left; reflexivity | right; exists ex; split; reflexivity ] |]);
    intros Hd; first [ discriminate Hd | reflexivity ].
Qed.

Lemma enable_while_running_is_noop_witness :
  sharing (snd (twiddle_sharing prefs_on_discoverable
                  (run [prefs_on_discoverable] init))) = true
  /\ twiddle_sharing prefs_on_discoverable (run [prefs_on_discoverable] init)
     = (Ok tt, run [prefs_on_discoverable] init).
Proof.
  destruct (enable_while_running_is_noop [prefs_on_discoverable]
              prefs_on_discoverable eq_refl eq_refl) as (H1 & _ & _ & _ & _ & H6).
  exact (conj H1 (H6 eq_refl)).
Defined.

End ManagerFacts.

(** ** The HTTP-auth relay *)

Section RelayFacts.
Import HttpAuth RelayInv.
Context {C : Type}.
Implicit Types (r : relay C) (cs : list (call C)).

Lemma times_called_snoc (id : Z) (l : list (event C)) (ev : event C) :
  times_called id (l ++ [ev])
  = (times_called id l + if is_call_of id ev then 1 else 0)%nat.
Proof.
  unfold times_called. rewrite filter_app, length_app. f_equal.
  destruct (is_call_of id ev) eqn:E.
  - rewrite filter_cons_True by exact E. reflexivity.
  - rewrite filter_cons_False by (rewrite E; discriminate). reflexivity.
Qed.

Lemma seqZ_succ (n : Z) : 0 <= n -> seqZ 0 (n + 1) = seqZ 0 n ++ [n].
Proof.
  intros Hn. rewrite seqZ_app by lia. reflexivity.
Qed.

Lemma consistent_start : consistent (@start C).
Proof.
  split; cbn.
  - lia.
  - reflexivity.
  - intros id [cb Hcb]. rewrite lookup_empty in Hcb. discriminate.
  - reflexivity.
  - intros _. unfold times_called. cbn. lia.
Qed.

(** Registering a callback, by either entry point. *)
Lemma consistent_register r (cb : C) (ev : event C) :
  issued ev = [requestIdGenerator r] ->
  consistent r ->
  consistent
    {| requestIdGenerator := requestIdGenerator r + 1;
       waitingHTTPAuthCallbacks :=
         <[requestIdGenerator r := cb]> (waitingHTTPAuthCallbacks r);
       log := log r ++ [ev] |}.
Proof.
  intros Hev [Hn Hi Hp Hu Hc].
  assert (Hno : forall id, is_call_of id ev = false).
  { intros id. destruct ev; cbn in *; [reflexivity | reflexivity | discriminate]. }
  split; cbn [requestIdGenerator waitingHTTPAuthCallbacks log].
  - lia.
  - rewrite flat_map_app, Hi, seqZ_succ by exact Hn. cbn.
    rewrite Hev. reflexivity.
  - intros id Hsome. rewrite times_called_snoc, Hno, Nat.add_0_r.
    destruct (decide (requestIdGenerator r = id)) as [<- | Hne].
    + split; [lia | apply Hu; lia].
    + rewrite lookup_insert_ne in Hsome by exact Hne.
      destruct (Hp id Hsome). split; [lia | assumption].
  - intros id Hid. rewrite times_called_snoc, Hno, Nat.add_0_r. apply Hu. lia.
  - intros id. rewrite times_called_snoc, Hno, Nat.add_0_r. apply Hc.
Qed.

Lemma consistent_step (c : call C) r : consistent r -> consistent (snd (step c r)).
Proof.
  intros Hr. destruct c as [cb host path | cb host path scheme | id_ hdr]; cbn.
  - apply consistent_register; [reflexivity | exact Hr].
  - apply consistent_register; [reflexivity | exact Hr].
  - unfold handle_http_auth_response, bind, pop.
    destruct (waitingHTTPAuthCallbacks r !! id_) as [cb |] eqn:Hlook; cbn;
      [| exact Hr].
    destruct Hr as [Hn Hi Hp Hu Hc].
    destruct (Hp id_ (ex_intro _ cb Hlook)) as [Hrange Hzero].
    split; cbn [requestIdGenerator waitingHTTPAuthCallbacks log].
    + exact Hn.
    + rewrite flat_map_app, Hi. cbn. apply app_nil_r.
    + intros id Hsome. rewrite times_called_snoc. cbn [is_call_of].
      destruct (decide (id_ = id)) as [<- | Hne].
      * rewrite lookup_delete_eq in Hsome. destruct Hsome; discriminate.
      * rewrite lookup_delete_ne in Hsome by exact Hne.
        rewrite bool_decide_eq_false_2 by exact Hne.
        rewrite Nat.add_0_r. apply Hp, Hsome.
    + intros id Hid. rewrite times_called_snoc. cbn [is_call_of].
      rewrite bool_decide_eq_false_2 by lia.
      rewrite Nat.add_0_r. apply Hu, Hid.
    + intros id. rewrite times_called_snoc. cbn [is_call_of].
      destruct (decide (id_ = id)) as [<- | Hne].
      * rewrite Hzero, bool_decide_eq_true_2 by reflexivity. lia.
      * rewrite bool_decide_eq_false_2 by exact Hne.
        rewrite Nat.add_0_r. apply Hc.
Qed.

Lemma consistent_run cs : forall r, consistent r -> consistent (run cs r).
Proof.
  induction cs as [| c cs IH]; intros r Hr; cbn; [exact Hr |].
  apply IH, consistent_step, Hr.
Qed.

Lemma consistent_reachable cs : consistent (run cs start).
Proof. apply consistent_run, consistent_start. Qed.

(** C10: after any sequence of calls into the relay, the identifiers
    handed out so far are 0, 1, 2, ... in order of registration; the next
    registration, by either entry point, uses the counter's current value,
    which is not pending; a response first removes the callback from the
    table and then calls it; no identifier has had its callback called
    more than once; and a response for an identifier already answered
    raises KeyError, calls nothing and changes nothing. *)
Theorem relay_calls_each_callback_once cs :
  let r := run cs start in
  flat_map issued (log r) = seqZ 0 (requestIdGenerator r)
  /\ waitingHTTPAuthCallbacks r !! requestIdGenerator r = None
  /\ (forall cb host path,
        find_http_auth cb host path r
        = (Ok tt,
           {| requestIdGenerator := requestIdGenerator r + 1;
              waitingHTTPAuthCallbacks :=
                <[requestIdGenerator r := cb]> (waitingHTTPAuthCallbacks r);
              log := log r ++ [FindHTTPAuthCommand (requestIdGenerator r) host path] |}))
  /\ (forall cb host path scheme,
        askForHTTPAuth cb host path scheme r
        = (Ok tt,
           {| requestIdGenerator := requestIdGenerator r + 1;
              waitingHTTPAuthCallbacks :=
                <[requestIdGenerator r := cb]> (waitingHTTPAuthCallbacks r);
              log := log r
                     ++ [AskForHTTPAuthCommand (requestIdGenerator r) host path scheme] |}))
  /\ (forall id_ cb hdr,
        waitingHTTPAuthCallbacks r !! id_ = Some cb ->
        exists r1,
          pop id_ r = (Ok cb, r1)
          /\ waitingHTTPAuthCallbacks r1 !! id_ = None
          /\ handle_http_auth_response id_ hdr r = emit (Called id_ cb hdr) r1)
  /\ (forall id, (times_called id (log r) <= 1)%nat)
  /\ (forall id_ hdr,
        times_called id_ (log r) = 1%nat ->
        handle_http_auth_response id_ hdr r = (Raise KeyError, r))
  /\ (forall id_ hdr hdr',
        fst (handle_http_auth_response id_ hdr r) = Ok tt ->
        let r' := snd (handle_http_auth_response id_ hdr r) in
        handle_http_auth_response id_ hdr' r' = (Raise KeyError, r')).
Proof.
  intros r. pose proof (consistent_reachable cs) as Hr. fold r in Hr.
  clearbody r. destruct Hr as [Hn Hi Hp Hu Hc].
  assert (Hgone : forall id_ hdr,
             waitingHTTPAuthCallbacks r !! id_ = None ->
             handle_http_auth_response id_ hdr r = (Raise KeyError, r)).
  { intros id_ hdr Hnone. unfold handle_http_auth_response, bind, pop.
    rewrite Hnone. reflexivity. }
  repeat split.
  - exact Hi.
  - destruct (waitingHTTPAuthCallbacks r !! requestIdGenerator r) eqn:E;
      [| reflexivity].
    destruct (Hp _ (ex_intro _ _ E)). lia.
  - intros id_ cb hdr Hlook. unfold handle_http_auth_response, bind, pop.
    rewrite Hlook. eexists. split; [reflexivity |]. split; [| reflexivity].
    cbn. apply lookup_delete_eq.
  - exact Hc.
  - intros id_ hdr Hone. apply Hgone.
    destruct (waitingHTTPAuthCallbacks r !! id_) eqn:E; [| reflexivity].
    destruct (Hp _ (ex_intro _ _ E)) as [_ Hzero]. rewrite Hzero in Hone.
    discriminate.
  - intros id_ hdr hdr'. unfold handle_http_auth_response, bind, pop.
    destruct (waitingHTTPAuthCallbacks r !! id_) eqn:E; cbn; [| discriminate].
    intros _. rewrite lookup_delete_eq. reflexivity.
Qed.

End RelayFacts.

Lemma relay_calls_each_callback_once_witness :
  (exists r1,
      HttpAuth.pop 1 (HttpAuth.run RelayInv.two_requests_one_answer HttpAuth.start)
      = (Ok 11%nat, r1)
      /\ HttpAuth.waitingHTTPAuthCallbacks r1 !! 1 = None
      /\ HttpAuth.handle_http_auth_response 1 RelayInv.header
           (HttpAuth.run RelayInv.two_requests_one_answer HttpAuth.start)
         = HttpAuth.emit (HttpAuth.Called 1 11%nat RelayInv.header) r1)
  /\ HttpAuth.handle_http_auth_response 0 RelayInv.header
       (HttpAuth.run RelayInv.two_requests_one_answer HttpAuth.start)
     = (Raise KeyError, HttpAuth.run RelayInv.two_requests_one_answer HttpAuth.start).
Proof.
  destruct (relay_calls_each_callback_once RelayInv.two_requests_one_answer)
    as (_ & _ & _ & _ & Hpop & _ & Hsecond & _).
  split.
  - apply Hpop. vm_compute. reflexivity.
  - apply Hsecond. vm_compute. reflexivity.
Defined.

(** ** The sharing backend *)

Section BackendFacts.
Import Backend.

(** What [daap_item_fixup] makes of an entry built by [make_item_dict]. *)
Lemma daap_item_fixup_entry_dict (k : Z) (name size duration file_type path e : pyval) :
  daap_item_fixup k (entry_dict name size duration file_type path e)
  = Ok [fixup_attribute "minm" name; fixup_attribute "asfm" e;
        fixup_attribute "assz" size; fixup_attribute "astm" duration;
        ("miid"%string, PyInt k);
        ("aeMK"%string,
         PyMediaKind (if py_eq file_type (PyStr (chars "video"))
                      then DAAP_MEDIAKIND_VIDEO else DAAP_MEDIAKIND_AUDIO))].
Proof.
  unfold daap_item_fixup, entry_dict, mapping, fixup_loop, getitem.
  repeat (first [ rewrite lookup_insert_eq
                | rewrite lookup_insert_ne by discriminate ]; cbn [obind app]).
  destruct (py_eq file_type (PyStr (chars "video"))); reflexivity.
Qed.

Lemma py_eq_video (file_type : pyval) :
  py_eq file_type (PyStr (chars "video"))
  = bool_decide (file_type = PyStr (chars "video")
                 \/ file_type = PyUnicode (chars "video")).
Proof.
  destruct file_type as [| n | s | u | k]; unfold py_eq;
    try (symmetry; apply bool_decide_eq_false_2; intros [H | H]; discriminate H).
  - apply bool_decide_ext. split; [auto | intros [H | H]; [exact H | discriminate H]].
  - change (is_ascii (chars "video")) with true. cbn [andb].
    apply bool_decide_ext. split.
    + intros ->. right. reflexivity.
    + intros [H | H]; [discriminate H | congruence].
Qed.

(** C8: the media-kind tag is a total function of the item's kind.  The
    translation of an entry never fails, its last attribute is the aeMK
    tag, and the tag is VIDEO exactly when the kind is the string "video"
    (byte string or unicode); "audio" and every other value give AUDIO. *)
Theorem media_kind_is_video_or_audio
    (k : Z) (name size duration file_type path e : pyval) :
  let tag :=
    if bool_decide (file_type = PyStr (chars "video")
                    \/ file_type = PyUnicode (chars "video"))
    then DAAP_MEDIAKIND_VIDEO else DAAP_MEDIAKIND_AUDIO in
  exists d,
    daap_item_fixup k (entry_dict name size duration file_type path e)
    = Ok (d ++ [("aeMK"%string, PyMediaKind tag)])
    /\ length d = 5%nat.
Proof.
  intros tag. rewrite daap_item_fixup_entry_dict, py_eq_video. fold tag.
  exists [fixup_attribute "minm" name; fixup_attribute "asfm" e;
          fixup_attribute "assz" size; fixup_attribute "astm" duration;
          ("miid"%string, PyInt k)].
  split; reflexivity.
Qed.

Example media_kind_video :
  daap_item_fixup 1 (entry_dict (PyStr (chars "a")) (PyInt 1) PyNone
                       (PyUnicode (chars "video")) (PyStr (chars "a.avi"))
                       (PyStr (chars "avi")))
  = Ok [("minm", PyStr (chars "a")); ("asfm", PyStr (chars "avi"));
        ("assz", PyInt 1); ("astm", PyNone); ("miid", PyInt 1);
        ("aeMK", PyMediaKind DAAP_MEDIAKIND_VIDEO)]%string.
Proof. rewrite daap_item_fixup_entry_dict. reflexivity. Qed.

Example media_kind_audio :
  daap_item_fixup 1 (entry_dict (PyStr (chars "a")) (PyInt 1) PyNone
                       (PyStr (chars "audio")) (PyStr (chars "a.ogg"))
                       (PyStr (chars "ogg")))
  = Ok [("minm", PyStr (chars "a")); ("asfm", PyStr (chars "ogg"));
        ("assz", PyInt 1); ("astm", PyNone); ("miid", PyInt 1);
        ("aeMK", PyMediaKind DAAP_MEDIAKIND_AUDIO)]%string.
Proof. rewrite daap_item_fixup_entry_dict. reflexivity. Qed.

Example media_kind_other :
  daap_item_fixup 1 (entry_dict (PyStr (chars "a")) (PyInt 1) PyNone
                       (PyStr (chars "other")) (PyStr (chars "a.pdf"))
                       (PyStr (chars "pdf")))
  = Ok [("minm", PyStr (chars "a")); ("asfm", PyStr (chars "pdf"));
        ("assz", PyInt 1); ("astm", PyNone); ("miid", PyInt 1);
        ("aeMK", PyMediaKind DAAP_MEDIAKIND_AUDIO)]%string.
Proof. rewrite daap_item_fixup_entry_dict. reflexivity. Qed.

(** *** Removal *)

Lemma del_playlist_absent (x : PlaylistInfo) (b : backend) :
  daap_playlists b !! playlist_id x = None ->
  del_playlist x b = (Raise KeyError, b).
Proof. intros Hnone. unfold del_playlist, delitem. rewrite Hnone. reflexivity. Qed.

Lemma del_playlist_present (x : PlaylistInfo) (b : backend) (a : list attribute) :
  daap_playlists b !! playlist_id x = Some a ->
  del_playlist x b = (Ok tt, set_daap_playlists (delete (playlist_id x)) b).
Proof. intros Hsome. unfold del_playlist, delitem. rewrite Hsome. reflexivity. Qed.

Lemma remove_item_absent (x : ItemInfo) (b : backend) :
  items b !! item_id x = None ->
  remove_item x b = (Raise KeyError, b).
Proof.
  intros Hnone. unfold remove_item, bind, delitem. rewrite Hnone. reflexivity.
Qed.

Lemma remove_item_present (x : ItemInfo) (b : backend)
    (entry : gmap string pyval) (d : list attribute) :
  items b !! item_id x = Some entry ->
  daapitems b !! item_id x = Some d ->
  remove_item x b
  = (Ok tt, set_daapitems (delete (item_id x)) (set_items (delete (item_id x)) b)).
Proof.
  intros Hi Hd. unfold remove_item, bind, delitem. rewrite Hi. cbn.
  rewrite Hd. reflexivity.
Qed.

(** C3, as the code has it: deleting an identifier that is not stored
    raises KeyError at that identifier, and nothing after it in the list is
    looked at; the failing deletion itself changes no entry.  Deleting a
    stored identifier removes it and goes on with the rest of the list, so
    a second removal of the same identifier raises. *)
Theorem removal_of_absent_raises_KeyError
    (b : backend) (x : PlaylistInfo) (rest : list PlaylistInfo)
    (y : ItemInfo) (more : list ItemInfo) :
  (daap_playlists b !! playlist_id x = None ->
     handle_playlist_removed (x :: rest) b = (Raise KeyError, b))
  /\ (is_Some (daap_playlists b !! playlist_id x) ->
        handle_playlist_removed (x :: rest) b
        = handle_playlist_removed rest (set_daap_playlists (delete (playlist_id x)) b)
        /\ handle_playlist_removed [x] (snd (handle_playlist_removed [x] b))
           = (Raise KeyError, snd (handle_playlist_removed [x] b)))
  /\ (items b !! item_id y = None ->
        handle_items_changed [] [] (y :: more) b = (Raise KeyError, b))
  /\ (is_Some (items b !! item_id y) -> is_Some (daapitems b !! item_id y) ->
        handle_items_changed [] [] (y :: more) b
        = handle_items_changed [] [] more
            (set_daapitems (delete (item_id y)) (set_items (delete (item_id y)) b))).
Proof.
  split; [| split; [| split]].
  - intros Hnone. unfold handle_playlist_removed. cbn [for_each]. unfold bind.
    rewrite (del_playlist_absent x b Hnone). reflexivity.
  - intros [a Ha]. unfold handle_playlist_removed. cbn [for_each]. unfold bind.
    rewrite (del_playlist_present x b a Ha). cbn [ret snd]. split; [reflexivity |].
    rewrite del_playlist_absent; [reflexivity |]. cbn. apply lookup_delete_eq.
  - intros Hnone. unfold handle_items_changed. cbn [for_each]. unfold bind.
    rewrite (remove_item_absent y b Hnone). reflexivity.
  - intros [entry Hi] [d Hd]. unfold handle_items_changed. cbn [for_each].
    unfold bind. rewrite (remove_item_present y b entry d Hi Hd). reflexivity.
Qed.

Lemma removal_of_absent_raises_KeyError_witness :
  handle_playlist_removed [favourites] empty_backend = (Raise KeyError, empty_backend)
  /\ handle_playlist_removed [favourites]
       (snd (handle_playlist_removed [favourites]
               (snd (handle_playlist_added [favourites] empty_backend))))
     = (Raise KeyError,
        snd (handle_playlist_removed [favourites]
               (snd (handle_playlist_added [favourites] empty_backend))))
  /\ handle_items_changed [] [] [movie] empty_backend = (Raise KeyError, empty_backend).
Proof.
  split; [| split].
  - apply (removal_of_absent_raises_KeyError empty_backend favourites [] movie []).
    reflexivity.
  - apply (removal_of_absent_raises_KeyError
             (snd (handle_playlist_added [favourites] empty_backend))
             favourites [] movie []).
    vm_compute. eexists. reflexivity.
  - apply (removal_of_absent_raises_KeyError empty_backend favourites [] movie []).
    reflexivity.
Defined.

(** C3 as stated fails: removing a playlist, or an item, that is not
    stored raises KeyError. *)
Lemma removal_of_absent_counterexample :
  daap_playlists empty_backend !! playlist_id favourites = None
  /\ fst (handle_playlist_removed [favourites] empty_backend) = Raise KeyError
  /\ items empty_backend !! item_id movie = None
  /\ fst (handle_items_changed [] [] [movie] empty_backend) = Raise KeyError.
Proof. repeat split. Qed.

(** *** [get_items] *)

Lemma comprehension_raises (playlist_id : pyval) (x : Z) (keys : list Z) :
  comprehension (x :: keys) (get_items_cond playlist_id) = Raise AttributeError.
Proof. reflexivity. Qed.

(** With a playlist given, [get_items] raises as soon as there is one item
    to look at, whatever the playlist. *)
Lemma get_items_nonempty_raises (playlist_id : pyval) (b : backend) :
  truthy playlist_id = true ->
  daapitems b <> ∅ ->
  get_items playlist_id b = Raise AttributeError.
Proof.
  intros Ht Hne. unfold get_items. rewrite Ht. cbn [negb].
  destruct (map_to_list (daapitems b)) as [| [x d] l] eqn:E.
  - apply map_to_list_empty_iff in E. contradiction.
  - cbn [fmap list_fmap fst]. rewrite comprehension_raises. reflexivity.
Qed.

(** C5: asking for the members of a playlist that is not in the index.
    The claim asks for an empty collection and no error.  With one item
    stored, [get_items] raises AttributeError instead: the comprehension
    runs over the integer keys of [daapitems] and reads [x.id] on the first
    of them, before the bare name [playlist_item_map] is even looked up.
    The playlist plays no part: the same call raises for a playlist that is
    in the index and has the stored item as its member. *)
Theorem get_items_unknown_playlist_raises :
  let b := feed [ItemList [movie]] empty_backend in
  let known :=
    feed [ItemList [movie]]
      (snd (Queries.populate_playlists [favourites] (fun _ => [1]) empty_backend)) in
  playlist_item_map b !! 7 = None
  /\ daap_playlists b !! 7 = None
  /\ get_items (PyInt 7) b = Raise AttributeError
  /\ int_getattr 1 "id" = Raise AttributeError
  /\ get_items_cond (PyInt 7) 1 = Raise AttributeError
  /\ playlist_item_map known !! 7 = Some [1]
  /\ get_items (PyInt 7) known = Raise AttributeError.
Proof.
  assert (Hraises : forall b0,
             daapitems b0 !! 1 <> None ->
             get_items (PyInt 7) b0 = Raise AttributeError).
  { intros b0 Hstored. apply get_items_nonempty_raises; [reflexivity |].
    intros Hempty. apply Hstored. rewrite Hempty. apply lookup_empty. }
  cbv zeta. repeat split; try reflexivity;
    apply Hraises; intros H; vm_compute in H; discriminate H.
Qed.

(** *** The two item tables stay in step *)

Lemma for_each_preserves {S A : Type} (P : S -> Prop) (body : A -> M S unit)
    (l : list A) :
  (forall x s, P s -> P (snd (body x s))) ->
  forall s, P s -> P (snd (for_each l body s)).
Proof.
  intros Hbody. induction l as [| x l IH]; intros s Hs; cbn; [exact Hs |].
  unfold bind. specialize (Hbody x s Hs).
  destruct (body x s) as [[[] | ex] s']; cbn in *; [apply IH |]; exact Hbody.
Qed.

Lemma make_item_result (x : ItemInfo) (b : backend) :
  make_item x b
  = match enclosure_format (item_video_path x) with
    | Ok e =>
        let entry := entry_dict (item_name x) (item_size x) (item_duration x)
                       (item_file_type x) (item_video_path x) e in
        match daap_item_fixup (item_id x) entry with
        | Ok d =>
            (Ok tt, set_daapitems (insert (item_id x) d)
                      (set_items (insert (item_id x) entry) b))
        | Raise ex => (Raise ex, set_items (insert (item_id x) entry) b)
        end
    | Raise ex => (Raise ex, b)
    end.
Proof.
  unfold make_item, bind, lift, modify.
  destruct (enclosure_format (item_video_path x)) as [e | ex]; [| reflexivity].
  cbn [items set_items]. unfold getitem at 1. rewrite lookup_insert_eq.
  destruct (daap_item_fixup _ _); reflexivity.
Qed.

Lemma translated_empty : translated empty_backend.
Proof. intros k. cbn. rewrite !lookup_empty. reflexivity. Qed.

Lemma translated_make_item (x : ItemInfo) (b : backend) :
  translated b -> translated (snd (make_item x b)).
Proof.
  intros Hb. rewrite make_item_result.
  destruct (enclosure_format (item_video_path x)) as [e | ex]; [| exact Hb].
  cbv zeta. rewrite daap_item_fixup_entry_dict. cbn [snd].
  intros k. cbn [items daapitems set_items set_daapitems].
  destruct (decide (item_id x = k)) as [<- | Hne].
  - rewrite !lookup_insert_eq. eexists. split; [| reflexivity].
    apply daap_item_fixup_entry_dict.
  - rewrite !lookup_insert_ne by exact Hne. apply Hb.
Qed.

Lemma translated_remove_item (x : ItemInfo) (b : backend) :
  translated b -> translated (snd (remove_item x b)).
Proof.
  intros Hb. pose proof (Hb (item_id x)) as Hx.
  destruct (items b !! item_id x) as [entry |] eqn:Hi.
  - destruct Hx as (d & _ & Hd).
    rewrite (remove_item_present x b entry d Hi Hd). cbn [snd].
    intros k. cbn [items daapitems set_items set_daapitems].
    destruct (decide (item_id x = k)) as [<- | Hne].
    + rewrite !lookup_delete_eq. reflexivity.
    + rewrite !lookup_delete_ne by exact Hne. apply Hb.
  - rewrite (remove_item_absent x b Hi). exact Hb.
Qed.

Lemma translated_make_item_dict (l : list ItemInfo) (b : backend) :
  translated b -> translated (snd (make_item_dict l b)).
Proof.
  apply (for_each_preserves translated). intros x s. apply translated_make_item.
Qed.

Lemma translated_deliver (m : message) (b : backend) :
  translated b -> translated (snd (deliver m b)).
Proof.
  intros Hb. destruct m as [l | added changed removed]; cbn [deliver].
  - apply translated_make_item_dict, Hb.
  - unfold handle_items_changed, bind.
    pose proof (for_each_preserves translated remove_item removed
                  translated_remove_item b Hb) as H1.
    destruct (for_each removed remove_item b) as [[[] | ex] b1]; cbn [snd] in *;
      [| exact H1].
    pose proof (translated_make_item_dict added b1 H1) as H2.
    destruct (make_item_dict added b1) as [[[] | ex] b2]; cbn [snd] in *;
      [| exact H2].
    apply translated_make_item_dict, H2.
Qed.

Lemma translated_feed (ms : list message) :
  forall b, translated b -> translated (feed ms b).
Proof.
  induction ms as [| m ms IH]; intros b Hb; cbn; [exact Hb |].
  apply IH, translated_deliver, Hb.
Qed.

(** C4: after any sequence of catalog messages, also when a handler
    raised on the way, the table of DAAP items has the keys of the table of
    items, and the DAAP item stored under an identifier is the translation
    of the entry stored there now. *)
Theorem translations_follow_catalog (ms : list message) :
  let b := feed ms empty_backend in
  dom (daapitems b) = dom (items b)
  /\ (forall k entry,
        items b !! k = Some entry ->
        exists d, daap_item_fixup k entry = Ok d /\ daapitems b !! k = Some d).
Proof.
  intros b. pose proof (translated_feed ms empty_backend translated_empty) as Hb.
  fold b in Hb. clearbody b. split.
  - apply set_eq. intros k. rewrite !elem_of_dom. specialize (Hb k).
    destruct (items b !! k) as [entry |].
    + destruct Hb as (d & _ & Hd). rewrite Hd. split; eauto.
    + rewrite Hb. split; intros [v Hv]; discriminate Hv.
  - intros k entry Hk. specialize (Hb k). rewrite Hk in Hb. exact Hb.
Qed.

Lemma translations_follow_catalog_witness :
  exists d,
    daap_item_fixup 1
      (entry_dict (PyUnicode (chars "Film")) (PyInt 2048) (PyInt 91)
         (PyUnicode (chars "video")) (PyStr (chars "/home/miro/film.avi"))
         (PyStr (chars "avi")))
    = Ok d
    /\ daapitems (feed [ItemList [movie; song];
                        ItemsChanged [] [movie_renamed] [song]] empty_backend) !! 1
       = Some d.
Proof.
  apply (translations_follow_catalog
           [ItemList [movie; song]; ItemsChanged [] [movie_renamed] [song]]).
  vm_compute. reflexivity.
Defined.

End BackendFacts.


(** ** Paths and extensions *)

Section PathFacts.
Import Backend.

Lemma rfind_from_app (a b : list Z) (c i found : Z) :
  rfind_from (a ++ b) c i found
  = rfind_from b c (i + Z.of_nat (length a)) (rfind_from a c i found).
Proof.
  revert i found. induction a as [| x a IH]; intros i found.
  - cbn. f_equal. lia.
  - cbn [app rfind_from length]. rewrite IH. f_equal. lia.
Qed.

Lemma rfind_from_notin (p : list Z) (c i found : Z) :
  c ∉ p -> rfind_from p c i found = found.
Proof.
  revert i found. induction p as [| x p IH]; intros i found Hc; [reflexivity |].
  apply not_elem_of_cons in Hc as [Hx Hp]. cbn.
  rewrite (proj2 (Z.eqb_neq x c)) by congruence. apply IH, Hp.
Qed.

Lemma rfind_from_bound (p : list Z) (c i found : Z) :
  rfind_from p c i found = found
  \/ i <= rfind_from p c i found < i + Z.of_nat (length p).
Proof.
  revert i found. induction p as [| x p IH]; intros i found; [left; reflexivity |].
  cbn [rfind_from length].
  destruct (IH (i + 1) (if x =? c then i else found)) as [-> | Hr].
  - destruct (x =? c); [right; lia | left; reflexivity].
  - right. lia.
Qed.

Lemma rfind_below_length (p : list Z) (c : Z) :
  -1 <= rfind p c < Z.of_nat (length p).
Proof.
  unfold rfind. destruct (rfind_from_bound p c 0 (-1)) as [-> | Hr]; lia.
Qed.

Lemma rfind_at_last (a b : list Z) (c : Z) :
  c ∉ b -> rfind (a ++ c :: b) c = Z.of_nat (length a).
Proof.
  intros Hb. unfold rfind. rewrite rfind_from_app. cbn [rfind_from].
  rewrite Z.eqb_refl, rfind_from_notin by exact Hb. lia.
Qed.

Lemma rfind_app_notin (a b : list Z) (c : Z) :
  c ∉ b -> rfind (a ++ b) c = rfind a c.
Proof.
  intros Hb. unfold rfind. rewrite rfind_from_app. apply rfind_from_notin, Hb.
Qed.

(** Every string is free of [c] or splits at its last [c]. *)
Lemma split_at_last (c : Z) (s : list Z) :
  c ∉ s \/ exists a b, s = a ++ c :: b /\ c ∉ b.
Proof.
  induction s as [| x s IH].
  - left. apply not_elem_of_nil.
  - destruct IH as [Hs | (a & b & -> & Hb)].
    + destruct (decide (x = c)) as [-> | Hx].
      * right. exists [], s. split; [reflexivity | exact Hs].
      * left. apply not_elem_of_cons. split; [congruence | exact Hs].
    + right. exists (x :: a), b. split; [reflexivity | exact Hb].
Qed.

(** Every path is a directory part, empty or ending in the separator,
    followed by a final segment without separator. *)
Lemma path_shape (p : list Z) :
  exists dir seg,
    p = dir ++ seg /\ (sep ∉ seg) /\ (dir = [] \/ exists d, dir = d ++ [sep]).
Proof.
  destruct (split_at_last sep p) as [Hp | (a & b & -> & Hb)].
  - exists [], p. repeat split; [exact Hp | left; reflexivity].
  - exists (a ++ [sep]), b. rewrite <- app_assoc. repeat split; [exact Hb |].
    right. exists a. reflexivity.
Qed.

Lemma sep_index (dir seg : list Z) :
  sep ∉ seg ->
  (dir = [] \/ exists d, dir = d ++ [sep]) ->
  rfind (dir ++ seg) sep = Z.of_nat (length dir) - 1.
Proof.
  intros Hseg [-> | [d ->]].
  - cbn [app length]. unfold rfind. rewrite rfind_from_notin by exact Hseg. lia.
  - rewrite <- app_assoc. cbn [app]. rewrite rfind_at_last by exact Hseg.
    rewrite length_app. cbn. lia.
Qed.

(** The loop over the characters between the separator and the last dot. *)
Lemma skip_leading_dots_spec (stem pre rest : list Z) (dotIndex : Z) :
  dotIndex = Z.of_nat (length pre + length stem) ->
  skip_leading_dots (pre ++ stem ++ rest) extsep dotIndex (length stem)
    (Z.of_nat (length pre))
  = Ok (negb (forallb (fun ch => ch =? extsep) stem)).
Proof.
  revert pre. induction stem as [| x stem IH]; intros pre Hdot; [reflexivity |].
  cbn [length skip_leading_dots forallb].
  cbn [length] in Hdot.
  assert (Hlt : Z.of_nat (length pre) < dotIndex) by lia.
  rewrite (proj2 (Z.ltb_lt _ _) Hlt).
  unfold str_index.
  rewrite !(proj2 (Z.ltb_ge (Z.of_nat (length pre)) 0)) by lia.
  rewrite Nat2Z.id.
  rewrite lookup_app_r by lia. rewrite Nat.sub_diag. cbn [app lookup list_lookup obind].
  destruct (x =? extsep) eqn:Ex; cbn [negb andb]; [| reflexivity].
  specialize (IH (pre ++ [x])).
  rewrite <- app_assoc in IH. cbn [app] in IH.
  rewrite length_app in IH. cbn [length] in IH.
  replace (Z.of_nat (length pre) + 1) with (Z.of_nat (length pre + 1)) by lia.
  apply IH. lia.
Qed.

Lemma splitext_no_dot (dir seg : list Z) :
  sep ∉ seg ->
  (dir = [] \/ exists d, dir = d ++ [sep]) ->
  extsep ∉ seg ->
  genericpath_splitext (dir ++ seg) sep None extsep = Ok NoExt.
Proof.
  intros Hseg Hdir Hdot. unfold genericpath_splitext.
  rewrite (sep_index dir seg Hseg Hdir), (rfind_app_notin dir seg extsep Hdot).
  pose proof (rfind_below_length dir extsep) as Hb.
  rewrite (proj2 (Z.ltb_ge _ _)) by lia. reflexivity.
Qed.

Lemma splitext_last_dot (dir stem ext : list Z) :
  sep ∉ stem ++ extsep :: ext ->
  (dir = [] \/ exists d, dir = d ++ [sep]) ->
  extsep ∉ ext ->
  genericpath_splitext (dir ++ stem ++ extsep :: ext) sep None extsep
  = Ok (if forallb (fun ch => ch =? extsep) stem then NoExt
        else SplitAt (dir ++ stem) (extsep :: ext)).
Proof.
  intros Hseg Hdir Hdot. unfold genericpath_splitext.
  rewrite (sep_index dir _ Hseg Hdir).
  assert (Hd : rfind (dir ++ stem ++ extsep :: ext) extsep
               = Z.of_nat (length dir + length stem)).
  { rewrite app_assoc, rfind_at_last by exact Hdot. rewrite length_app. reflexivity. }
  rewrite Hd. rewrite (proj2 (Z.ltb_lt _ _)) by lia.
  replace (Z.of_nat (length dir) - 1 + 1) with (Z.of_nat (length dir)) by lia.
  replace (Z.to_nat (Z.of_nat (length dir + length stem) - Z.of_nat (length dir)))
    with (length stem) by lia.
  rewrite (skip_leading_dots_spec stem dir (extsep :: ext) _ eq_refl).
  cbn [obind]. destruct (forallb _ stem); cbn [negb]; [reflexivity |].
  unfold slice_to, slice_from, slice_bound.
  rewrite (proj2 (Z.ltb_ge _ _)) by lia.
  rewrite !length_app. cbn [length].
  replace (Z.to_nat _) with (length (dir ++ stem)) by (rewrite length_app; lia).
  rewrite app_assoc. rewrite take_app_length, drop_app_length. reflexivity.
Qed.

Lemma slice_from_cons_1 (x : Z) (l : list Z) : slice_from (x :: l) 1 = l.
Proof.
  unfold slice_from, slice_bound. cbn [length Z.ltb Z.compare].
  replace (Z.to_nat _) with 1%nat by lia. reflexivity.
Qed.

(** What [make_item_dict] computes as [e] for a path with final segment
    [seg]. *)
Lemma enclosure_format_no_dot (dir seg : list Z) :
  sep ∉ seg ->
  (dir = [] \/ exists d, dir = d ++ [sep]) ->
  extsep ∉ seg ->
  enclosure_format (PyStr (dir ++ seg)) = Ok (PyStr [])
  /\ enclosure_format (PyUnicode (dir ++ seg)) = Ok (PyStr []).
Proof.
  intros Hseg Hdir Hdot. unfold enclosure_format, os_path_splitext.
  rewrite (splitext_no_dot dir seg Hseg Hdir Hdot). split; reflexivity.
Qed.

Lemma enclosure_format_last_dot (dir stem ext : list Z) :
  sep ∉ stem ++ extsep :: ext ->
  (dir = [] \/ exists d, dir = d ++ [sep]) ->
  extsep ∉ ext ->
  enclosure_format (PyStr (dir ++ stem ++ extsep :: ext))
  = Ok (PyStr (if forallb (fun ch => ch =? extsep) stem then [] else ext))
  /\ enclosure_format (PyUnicode (dir ++ stem ++ extsep :: ext))
     = Ok (if forallb (fun ch => ch =? extsep) stem then PyStr [] else PyUnicode ext).
Proof.
  intros Hseg Hdir Hdot. unfold enclosure_format, os_path_splitext.
  rewrite (splitext_last_dot dir stem ext Hseg Hdir Hdot).
  destruct (forallb _ stem); cbn [obind snd truthy];
    [split; reflexivity |].
  rewrite bool_decide_eq_false_2 by discriminate. cbn [negb slice_from_1].
  rewrite slice_from_cons_1. split; reflexivity.
Qed.

Lemma make_item_stores_extension (x : ItemInfo) (b : backend) (e : pyval) :
  enclosure_format (item_video_path x) = Ok e ->
  stored_extension x b = Some e.
Proof.
  intros He. unfold stored_extension. rewrite make_item_result, He. cbv zeta.
  rewrite daap_item_fixup_entry_dict.
  cbn [snd items daapitems set_items set_daapitems].
  rewrite lookup_insert_eq. unfold entry_dict.
  repeat (first [ rewrite lookup_insert_eq
                | rewrite lookup_insert_ne by discriminate ]).
  reflexivity.
Qed.

(** C7, as the code has it.  The extension stored for an item is the one
    [os.path.splitext] finds in its path, without the dot.  For a path whose
    final segment is [seg]: if [seg] has no '.', the extension is empty; if
    [seg] is [stem], '.', [ext] with no '.' in [ext], the extension is [ext]
    when [stem] has a character other than '.', and empty when [stem] is
    empty or made of dots only. *)
Theorem extension_after_last_dot (dir seg : list Z) :
  sep ∉ seg ->
  (dir = [] \/ exists d, dir = d ++ [sep]) ->
  (forall x b e, enclosure_format (item_video_path x) = Ok e ->
                 stored_extension x b = Some e)
  /\ (extsep ∉ seg ->
        enclosure_format (PyStr (dir ++ seg)) = Ok (PyStr [])
        /\ enclosure_format (PyUnicode (dir ++ seg)) = Ok (PyStr []))
  /\ (forall stem ext,
        seg = stem ++ extsep :: ext ->
        extsep ∉ ext ->
        enclosure_format (PyStr (dir ++ seg))
        = Ok (PyStr (if forallb (fun ch => ch =? extsep) stem then [] else ext))
        /\ enclosure_format (PyUnicode (dir ++ seg))
           = Ok (if forallb (fun ch => ch =? extsep) stem
                 then PyStr [] else PyUnicode ext)).
Proof.
  intros Hseg Hdir. split; [| split].
  - apply make_item_stores_extension.
  - apply enclosure_format_no_dot; assumption.
  - intros stem ext -> Hext. apply enclosure_format_last_dot; assumption.
Qed.

Ltac absent_char :=
  vm_compute; intros H;
  repeat (apply elem_of_cons in H as [H | H]; [discriminate H |]);
  apply elem_of_nil in H; exact H.

Lemma extension_after_last_dot_witness :
  stored_extension movie empty_backend = Some (PyStr (chars "mp4"))
  /\ enclosure_format (PyStr (chars "/home/miro/song")) = Ok (PyStr [])
  /\ enclosure_format (PyStr (chars "/home/miro/movie.mp4")) = Ok (PyStr (chars "mp4")).
Proof.
  assert (Hsong : sep ∉ chars "song") by absent_char.
  assert (Hsong' : extsep ∉ chars "song") by absent_char.
  assert (Hmovie : sep ∉ chars "movie.mp4") by absent_char.
  assert (Hmp4 : extsep ∉ chars "mp4") by absent_char.
  assert (Hdir : chars "/home/miro/" = [] \/ exists d, chars "/home/miro/" = d ++ [sep])
    by (right; exists (chars "/home/miro"); reflexivity).
  destruct (extension_after_last_dot (chars "/home/miro/") (chars "song") Hsong Hdir)
    as (Hstore & Hnodot & _).
  destruct (extension_after_last_dot (chars "/home/miro/") (chars "movie.mp4") Hmovie Hdir)
    as (_ & _ & Hdot).
  split; [| split].
  - apply Hstore. reflexivity.
  - exact (proj1 (Hnodot Hsong')).
  - exact (proj1 (Hdot (chars "movie") (chars "mp4") eq_refl Hmp4)).
Defined.

(** C7 as stated fails on a final segment that starts with its only dot:
    the text after the last '.' of ".hidden" is "hidden", the extension the
    code stores is empty. *)
Lemma extension_after_last_dot_counterexample :
  spec_extension (chars "/home/miro/.hidden") = chars "hidden"
  /\ enclosure_format (PyStr (chars "/home/miro/.hidden")) = Ok (PyStr [])
  /\ enclosure_format (PyStr (chars "/home/miro/.hidden"))
     <> Ok (PyStr (spec_extension (chars "/home/miro/.hidden"))).
Proof. repeat split. discriminate. Qed.

Example extension_movie_mp4 :
  enclosure_format (PyStr (chars "movie.mp4")) = Ok (PyStr (chars "mp4")).
Proof. reflexivity. Qed.

Example extension_movie :
  enclosure_format (PyStr (chars "movie")) = Ok (PyStr (chars "")).
Proof. reflexivity. Qed.

Example extension_spec_agrees_on_movie_mp4 :
  spec_extension (chars "movie.mp4") = chars "mp4".
Proof. reflexivity. Qed.

Example rfind_last_separator : rfind (chars "a/b/c") sep = 3.
Proof. reflexivity. Qed.

Example rfind_absent : rfind (chars "abc") sep = -1.
Proof. reflexivity. Qed.

Example splitext_dotted_directory :
  os_path_splitext (PyStr (chars "/tmp.d/.hidden"))
  = Ok (PyStr (chars "/tmp.d/.hidden"), PyStr []).
Proof. reflexivity. Qed.

Example splitext_unicode_without_extension :
  os_path_splitext (PyUnicode (chars "song"))
  = Ok (PyUnicode (chars "song"), PyStr []).
Proof. reflexivity. Qed.

Example encode_utf8_two_and_three_bytes :
  encode_utf8 [233; 8364] = [195; 169; 226; 130; 172].
Proof. reflexivity. Qed.

End PathFacts.

(** ** More on the catalog: what [make_item_dict] stores *)

Section CatalogFacts.
Import Backend Queries.

Lemma for_each_app {S A : Type} (body : A -> M S unit) (l1 l2 : list A) (s : S) :
  for_each (l1 ++ l2) body s
  = bind (for_each l1 body) (fun _ => for_each l2 body) s.
Proof.
  revert s. induction l1 as [| x l1 IH]; intros s; [reflexivity |].
  cbn [app for_each]. unfold bind.
  destruct (body x s) as [[[] | ex] s']; [| reflexivity].
  rewrite IH. reflexivity.
Qed.

Lemma enclosure_format_not_text (p : pyval) :
  is_text p = false -> enclosure_format p = Raise AttributeError.
Proof. destruct p; cbn; intros H; first [discriminate H | reflexivity]. Qed.

Lemma enclosure_format_ok_text (p e : pyval) :
  enclosure_format p = Ok e -> is_text p = true.
Proof. destruct p; cbn; intros H; first [discriminate H | reflexivity]. Qed.

(** The extension of any string path: a dot-free, separator-free suffix. *)
Lemma extension_shape (p : list Z) :
  exists e,
    enclosure_format (PyStr p) = Ok (PyStr e)
    /\ (enclosure_format (PyUnicode p) = Ok (PyUnicode e)
        \/ e = [] /\ enclosure_format (PyUnicode p) = Ok (PyStr []))
    /\ (exists root, p = root ++ e)
    /\ (extsep ∉ e)
    /\ (sep ∉ e).
Proof.
  destruct (path_shape p) as (dir & seg & -> & Hseg & Hdir).
  destruct (split_at_last extsep seg) as [Hdot | (stem & ext & -> & Hext)].
  - destruct (enclosure_format_no_dot dir seg Hseg Hdir Hdot) as [Hs Hu].
    exists []. rewrite Hs, Hu. repeat split.
    + right. split; reflexivity.
    + exists (dir ++ seg). symmetry. apply app_nil_r.
    + apply not_elem_of_nil.
    + apply not_elem_of_nil.
  - destruct (enclosure_format_last_dot dir stem ext Hseg Hdir Hext) as [Hs Hu].
    rewrite Hs, Hu. destruct (forallb _ stem).
    + exists []. repeat split.
      * right. split; reflexivity.
      * exists (dir ++ stem ++ extsep :: ext). symmetry. apply app_nil_r.
      * apply not_elem_of_nil.
      * apply not_elem_of_nil.
    + exists ext. repeat split.
      * left. reflexivity.
      * exists (dir ++ stem ++ [extsep]). rewrite <- !app_assoc. reflexivity.
      * exact Hext.
      * intros Hin. apply Hseg. apply elem_of_app. right.
        apply elem_of_cons. right. exact Hin.
Qed.

Lemma enclosure_format_text (p : pyval) :
  is_text p = true -> exists e, enclosure_format p = Ok e.
Proof.
  destruct p as [| n | s | u | k]; cbn; intros H; try discriminate H.
  - destruct (extension_shape s) as (e & Hs & _). eauto.
  - destruct (extension_shape u) as (e & _ & [Hu | [_ Hu]] & _); eauto.
Qed.

Lemma make_item_text (x : ItemInfo) (b : backend) :
  is_text (item_video_path x) = true ->
  exists e d,
    enclosure_format (item_video_path x) = Ok e
    /\ daap_item_fixup (item_id x) (entry_of x e) = Ok d
    /\ make_item x b
       = (Ok tt, set_daapitems (insert (item_id x) d)
                   (set_items (insert (item_id x) (entry_of x e)) b)).
Proof.
  intros Ht. destruct (enclosure_format_text _ Ht) as [e He].
  exists e. eexists. split; [exact He |]. split.
  - unfold entry_of. apply daap_item_fixup_entry_dict.
  - rewrite make_item_result, He. cbv zeta.
    rewrite daap_item_fixup_entry_dict. reflexivity.
Qed.

Lemma make_item_not_text (x : ItemInfo) (b : backend) :
  is_text (item_video_path x) = false ->
  make_item x b = (Raise AttributeError, b).
Proof.
  intros Ht. rewrite make_item_result, (enclosure_format_not_text _ Ht). reflexivity.
Qed.

Lemma make_item_dict_ok (l : list ItemInfo) :
  Forall (fun x => is_text (item_video_path x) = true) l ->
  forall b, fst (make_item_dict l b) = Ok tt.
Proof.
  induction 1 as [| x l Hx _ IH]; intros b; [reflexivity |].
  unfold make_item_dict in *. cbn [for_each]. unfold bind.
  destruct (make_item_text x b Hx) as (e & d & _ & _ & ->). apply IH.
Qed.

Lemma make_item_frame (x : ItemInfo) (b : backend) (k : Z) :
  item_id x <> k ->
  items (snd (make_item x b)) !! k = items b !! k
  /\ daapitems (snd (make_item x b)) !! k = daapitems b !! k.
Proof.
  intros Hk. rewrite make_item_result.
  destruct (enclosure_format (item_video_path x)); [| split; reflexivity].
  cbv zeta. rewrite daap_item_fixup_entry_dict.
  cbn [snd items daapitems set_items set_daapitems].
  rewrite !lookup_insert_ne by exact Hk. split; reflexivity.
Qed.

Lemma make_item_dict_frame (l : list ItemInfo) (k : Z) :
  k ∉ item_id <$> l ->
  forall b,
    items (snd (make_item_dict l b)) !! k = items b !! k
    /\ daapitems (snd (make_item_dict l b)) !! k = daapitems b !! k.
Proof.
  induction l as [| x l IH]; intros Hk b; [split; reflexivity |].
  cbn [fmap list_fmap] in Hk. apply not_elem_of_cons in Hk as [Hx Hl].
  unfold make_item_dict in *. cbn [for_each]. unfold bind.
  pose proof (make_item_frame x b k (not_eq_sym Hx)) as [Hi Hd].
  destruct (make_item x b) as [[[] | ex] b1]; cbn [snd] in *.
  - destruct (IH Hl b1) as [Hi' Hd']. rewrite Hi', Hd'. split; assumption.
  - split; assumption.
Qed.

(** After a list of items with string paths, the last item of the list with
    a given identifier is the one stored, with its translation. *)
Lemma make_item_dict_last (l1 l2 : list ItemInfo) (x : ItemInfo) (b : backend) :
  Forall (fun y => is_text (item_video_path y) = true) (l1 ++ x :: l2) ->
  item_id x ∉ item_id <$> l2 ->
  exists e d,
    enclosure_format (item_video_path x) = Ok e
    /\ daap_item_fixup (item_id x) (entry_of x e) = Ok d
    /\ items (snd (make_item_dict (l1 ++ x :: l2) b)) !! item_id x
       = Some (entry_of x e)
    /\ daapitems (snd (make_item_dict (l1 ++ x :: l2) b)) !! item_id x = Some d.
Proof.
  intros Hall Hlast.
  apply Forall_app in Hall as [H1 H2]. apply Forall_cons in H2 as [Hx H2].
  unfold make_item_dict. rewrite !for_each_app. unfold bind.
  pose proof (make_item_dict_ok l1 H1 b) as Hok. unfold make_item_dict in Hok.
  destruct (for_each l1 make_item b) as [[[] | ex] b1]; cbn [fst] in Hok;
    [| discriminate Hok].
  cbn [for_each]. unfold bind.
  destruct (make_item_text x b1 Hx) as (e & d & He & Hd & ->).
  exists e, d. split; [exact He |]. split; [exact Hd |].
  match goal with
  | |- context [for_each l2 make_item ?s] =>
      destruct (make_item_dict_frame l2 (item_id x) Hlast s) as [Hi Hd']
  end.
  unfold make_item_dict in Hi, Hd'. rewrite Hi, Hd'.
  cbn [items daapitems set_items set_daapitems].
  rewrite !lookup_insert_eq. split; reflexivity.
Qed.

Lemma entry_of_path (x : ItemInfo) (e : pyval) :
  entry_of x e !! "path"%string = Some (item_video_path x).
Proof.
  unfold entry_of, entry_dict.
  repeat (first [ rewrite lookup_insert_eq
                | rewrite lookup_insert_ne by discriminate ]).
  reflexivity.
Qed.

(** X1: the extension [make_item_dict] derives from a string path is
    always defined; it is a suffix of the path and contains neither a dot
    nor a path separator.  For a unicode path it is unicode, except that the
    empty extension is the byte string [''] when the path has none. *)
Theorem extension_is_clean_suffix (p : list Z) :
  exists e,
    enclosure_format (PyStr p) = Ok (PyStr e)
    /\ (enclosure_format (PyUnicode p) = Ok (PyUnicode e)
        \/ e = [] /\ enclosure_format (PyUnicode p) = Ok (PyStr []))
    /\ (exists root, p = root ++ e)
    /\ (extsep ∉ e)
    /\ (sep ∉ e).
Proof. apply extension_shape. Qed.

(** X2: when every item of the list has a string path, [make_item_dict]
    succeeds, and for the last item of the list with a given identifier the
    entry and its translation are the ones stored and [get_filepath] gives
    back its path. *)
Theorem item_list_stores_last_of_each
    (l1 l2 : list ItemInfo) (x : ItemInfo) (b : backend) :
  Forall (fun y => is_text (item_video_path y) = true) (l1 ++ x :: l2) ->
  item_id x ∉ item_id <$> l2 ->
  let b' := snd (make_item_dict (l1 ++ x :: l2) b) in
  fst (make_item_dict (l1 ++ x :: l2) b) = Ok tt
  /\ get_filepath (item_id x) b' = Ok (item_video_path x)
  /\ exists e d,
       enclosure_format (item_video_path x) = Ok e
       /\ daap_item_fixup (item_id x) (entry_of x e) = Ok d
       /\ items b' !! item_id x = Some (entry_of x e)
       /\ daapitems b' !! item_id x = Some d.
Proof.
  intros Hall Hlast b'.
  destruct (make_item_dict_last l1 l2 x b Hall Hlast) as (e & d & He & Hd & Hi & Hd').
  fold b' in Hi, Hd'. split; [apply make_item_dict_ok, Hall |]. split.
  - unfold get_filepath, getitem. rewrite Hi. cbn [obind].
    rewrite entry_of_path. reflexivity.
  - exists e, d. auto.
Qed.

Lemma item_list_stores_last_of_each_witness :
  get_filepath 1 (snd (make_item_dict [movie; song; movie_renamed] empty_backend))
  = Ok (PyStr (chars "/home/miro/film.avi")).
Proof.
  apply (item_list_stores_last_of_each [movie; song] [] movie_renamed empty_backend).
  - repeat constructor.
  - apply not_elem_of_nil.
Defined.

(** X3: an item whose path is not a string (None, say) makes
    [make_item_dict] raise AttributeError at that item: the items before it
    are stored, nothing is stored for it, and the items after it are not
    looked at. *)
Theorem item_without_path_stops_the_list
    (pre post : list ItemInfo) (x : ItemInfo) (b : backend) :
  Forall (fun y => is_text (item_video_path y) = true) pre ->
  is_text (item_video_path x) = false ->
  fst (make_item_dict pre b) = Ok tt
  /\ make_item_dict (pre ++ x :: post) b
     = (Raise AttributeError, snd (make_item_dict pre b)).
Proof.
  intros Hpre Hx. pose proof (make_item_dict_ok pre Hpre b) as Hok.
  split; [exact Hok |].
  unfold make_item_dict in *. rewrite for_each_app. unfold bind.
  destruct (for_each pre make_item b) as [[[] | ex] b1]; cbn [fst] in Hok;
    [| discriminate Hok].
  cbn [for_each snd]. unfold bind. rewrite (make_item_not_text x b1 Hx). reflexivity.
Qed.

Lemma item_without_path_stops_the_list_witness :
  make_item_dict [movie; no_path; song] empty_backend
  = (Raise AttributeError, snd (make_item_dict [movie] empty_backend)).
Proof.
  apply (item_without_path_stops_the_list [movie] [song] no_path empty_backend).
  - repeat constructor.
  - reflexivity.
Defined.

Lemma remove_item_frame (x : ItemInfo) (b : backend) (k : Z) :
  item_id x <> k ->
  items (snd (remove_item x b)) !! k = items b !! k
  /\ daapitems (snd (remove_item x b)) !! k = daapitems b !! k.
Proof.
  intros Hk. unfold remove_item, bind, delitem.
  destruct (items b !! item_id x); cbn; [| split; reflexivity].
  destruct (daapitems b !! item_id x); cbn;
    rewrite ?lookup_delete_ne by exact Hk; split; reflexivity.
Qed.

Lemma remove_items_frame (l : list ItemInfo) (k : Z) :
  k ∉ item_id <$> l ->
  forall b,
    items (snd (for_each l remove_item b)) !! k = items b !! k
    /\ daapitems (snd (for_each l remove_item b)) !! k = daapitems b !! k.
Proof.
  induction l as [| x l IH]; intros Hk b; [split; reflexivity |].
  cbn [fmap list_fmap] in Hk. apply not_elem_of_cons in Hk as [Hx Hl].
  cbn [for_each]. unfold bind.
  pose proof (remove_item_frame x b k (not_eq_sym Hx)) as [Hi Hd].
  destruct (remove_item x b) as [[[] | ex] b1]; cbn [snd] in *.
  - destruct (IH Hl b1) as [Hi' Hd']. rewrite Hi', Hd'. split; assumption.
  - split; assumption.
Qed.

Lemma make_item_playlists (x : ItemInfo) (b : backend) :
  daap_playlists (snd (make_item x b)) = daap_playlists b
  /\ playlist_item_map (snd (make_item x b)) = playlist_item_map b.
Proof.
  rewrite make_item_result.
  destruct (enclosure_format (item_video_path x)); [| split; reflexivity].
  cbv zeta. rewrite daap_item_fixup_entry_dict. split; reflexivity.
Qed.

Lemma remove_item_playlists (x : ItemInfo) (b : backend) :
  daap_playlists (snd (remove_item x b)) = daap_playlists b
  /\ playlist_item_map (snd (remove_item x b)) = playlist_item_map b.
Proof.
  unfold remove_item, bind, delitem.
  destruct (items b !! item_id x); cbn; [| split; reflexivity].
  destruct (daapitems b !! item_id x); cbn; split; reflexivity.
Qed.

(** X4: a catalog message changes nothing but the entries of the items it
    names: the entry and the translation of every other identifier stay as
    they were, and so do both playlist tables, whether the handler returns
    or raises. *)
Theorem catalog_message_touches_only_its_items (m : message) (b : backend) (k : Z) :
  k ∉ touched m ->
  items (snd (deliver m b)) !! k = items b !! k
  /\ daapitems (snd (deliver m b)) !! k = daapitems b !! k
  /\ daap_playlists (snd (deliver m b)) = daap_playlists b
  /\ playlist_item_map (snd (deliver m b)) = playlist_item_map b.
Proof.
  intros Hk.
  assert (Hpl : forall m b,
            daap_playlists (snd (deliver m b)) = daap_playlists b
            /\ playlist_item_map (snd (deliver m b)) = playlist_item_map b).
  { clear. intros m b.
    set (P := fun s : backend =>
                daap_playlists s = daap_playlists b
                /\ playlist_item_map s = playlist_item_map b).
    assert (Hmk : forall x s, P s -> P (snd (make_item x s))).
    { intros x s [H1 H2]. destruct (make_item_playlists x s) as [H3 H4].
      split; congruence. }
    assert (Hrm : forall x s, P s -> P (snd (remove_item x s))).
    { intros x s [H1 H2]. destruct (remove_item_playlists x s) as [H3 H4].
      split; congruence. }
    assert (Hb : P b) by (split; reflexivity).
    destruct m as [l | added changed removed]; cbn [deliver].
    - apply (for_each_preserves P make_item l Hmk b Hb).
    - unfold handle_items_changed, make_item_dict, bind.
      pose proof (for_each_preserves P remove_item removed Hrm b Hb) as H1.
      destruct (for_each removed remove_item b) as [[[] | ex] b1]; cbn [snd] in *;
        [| exact H1].
      pose proof (for_each_preserves P make_item added Hmk b1 H1) as H2.
      destruct (for_each added make_item b1) as [[[] | ex] b2]; cbn [snd] in *;
        [| exact H2].
      apply (for_each_preserves P make_item changed Hmk b2 H2). }
  destruct (Hpl m b) as [Hp1 Hp2].
  enough (items (snd (deliver m b)) !! k = items b !! k
          /\ daapitems (snd (deliver m b)) !! k = daapitems b !! k) by tauto.
  destruct m as [l | added changed removed]; cbn [deliver touched] in *.
  - apply make_item_dict_frame, Hk.
  - rewrite !fmap_app in Hk.
    apply not_elem_of_app in Hk as [Hr Hk]. apply not_elem_of_app in Hk as [Ha Hc].
    unfold handle_items_changed, bind.
    pose proof (remove_items_frame removed k Hr b) as [Hi1 Hd1].
    destruct (for_each removed remove_item b) as [[[] | ex] b1]; cbn [snd] in *;
      [| split; assumption].
    pose proof (make_item_dict_frame added k Ha b1) as [Hi2 Hd2].
    destruct (make_item_dict added b1) as [[[] | ex] b2]; cbn [snd] in *;
      [| split; congruence].
    pose proof (make_item_dict_frame changed k Hc b2) as [Hi3 Hd3].
    split; congruence.
Qed.

Lemma catalog_message_touches_only_its_items_witness :
  items (snd (deliver (ItemsChanged [] [movie_renamed] [])
                (feed [ItemList [movie; song]] empty_backend))) !! 2
  = items (feed [ItemList [movie; song]] empty_backend) !! 2.
Proof.
  apply (catalog_message_touches_only_its_items
           (ItemsChanged [] [movie_renamed] [])
           (feed [ItemList [movie; song]] empty_backend) 2).
  vm_compute. intros H.
  repeat (apply elem_of_cons in H as [H | H]; [discriminate H |]).
  apply elem_of_nil in H. exact H.
Defined.

(** X5: [handle_item_list] never removes anything: every identifier stored
    before is still stored after, in both tables, whether the handler
    returns or raises. *)
Theorem item_list_never_removes (l : list ItemInfo) (b : backend) :
  dom (items b) ⊆ dom (items (snd (handle_item_list l b)))
  /\ dom (daapitems b) ⊆ dom (daapitems (snd (handle_item_list l b))).
Proof.
  unfold handle_item_list, make_item_dict.
  apply (for_each_preserves
           (fun s => dom (items b) ⊆ dom (items s)
                     /\ dom (daapitems b) ⊆ dom (daapitems s)) make_item l);
    [| split; reflexivity].
  intros x s [H1 H2]. rewrite make_item_result.
  destruct (enclosure_format (item_video_path x)); [| split; assumption].
  cbv zeta. rewrite daap_item_fixup_entry_dict.
  cbn [snd items daapitems set_items set_daapitems].
  rewrite !dom_insert_L. split; set_solver.
Qed.

(** X6: [handle_items_changed] treats added and changed items alike: after
    the removals, it does what [handle_item_list] does on the added items
    followed by the changed ones. *)
Theorem added_and_changed_are_one_list
    (added changed removed : list ItemInfo) (b : backend) :
  handle_items_changed added changed removed b
  = bind (handle_items_changed [] [] removed)
      (fun _ => handle_item_list (added ++ changed)) b.
Proof.
  unfold handle_items_changed, handle_item_list, make_item_dict.
  cbn [for_each]. unfold bind, ret.
  destruct (for_each removed remove_item b) as [[[] | ex] b1]; [| reflexivity].
  rewrite for_each_app. unfold bind. reflexivity.
Qed.

End CatalogFacts.


(** ** Lookups by identifier, translation in general, and playlists *)

Section QueryFacts.
Import Backend Queries.

Lemma entries_built_empty : entries_built empty_backend.
Proof. intros k entry H. cbn in H. rewrite lookup_empty in H. discriminate H. Qed.

Lemma entries_built_make_item (x : ItemInfo) (b : backend) :
  entries_built b -> entries_built (snd (make_item x b)).
Proof.
  intros Hb. rewrite make_item_result.
  destruct (enclosure_format (item_video_path x)) as [e | ex] eqn:He; [| exact Hb].
  cbv zeta. rewrite daap_item_fixup_entry_dict. cbn [snd].
  intros k entry. cbn [items set_items set_daapitems].
  destruct (decide (item_id x = k)) as [<- | Hne].
  - rewrite lookup_insert_eq. intros [= <-]. exists x, e.
    split; [reflexivity |]. apply (enclosure_format_ok_text _ e He).
  - rewrite lookup_insert_ne by exact Hne. apply Hb.
Qed.

Lemma entries_built_remove_item (x : ItemInfo) (b : backend) :
  entries_built b -> entries_built (snd (remove_item x b)).
Proof.
  intros Hb. unfold remove_item, bind, delitem.
  destruct (items b !! item_id x); cbn; [| exact Hb].
  destruct (daapitems b !! item_id x); cbn;
    intros k entry; cbn [items set_items set_daapitems];
    intros [_ H]%lookup_delete_Some; apply (Hb k entry H).
Qed.

Lemma entries_built_deliver (m : message) (b : backend) :
  entries_built b -> entries_built (snd (deliver m b)).
Proof.
  intros Hb. destruct m as [l | added changed removed]; cbn [deliver].
  - apply (for_each_preserves entries_built make_item l entries_built_make_item b Hb).
  - unfold handle_items_changed, make_item_dict, bind.
    pose proof (for_each_preserves entries_built remove_item removed
                  entries_built_remove_item b Hb) as H1.
    destruct (for_each removed remove_item b) as [[[] | ex] b1]; cbn [snd] in *;
      [| exact H1].
    pose proof (for_each_preserves entries_built make_item added
                  entries_built_make_item b1 H1) as H2.
    destruct (for_each added make_item b1) as [[[] | ex] b2]; cbn [snd] in *;
      [| exact H2].
    apply (for_each_preserves entries_built make_item changed
             entries_built_make_item b2 H2).
Qed.

Lemma entries_built_feed (ms : list message) :
  forall b, entries_built b -> entries_built (feed ms b).
Proof.
  induction ms as [| m ms IH]; intros b Hb; cbn; [exact Hb |].
  apply IH, entries_built_deliver, Hb.
Qed.

(** X7: after any sequence of catalog messages, [get_filepath] raises
    KeyError exactly for the identifiers that are not stored; for a stored
    identifier it returns a string, never None: the entry always has its
    path. *)
Theorem get_filepath_of_stored_items (ms : list message) (k : Z) :
  let b := feed ms empty_backend in
  (items b !! k = None -> get_filepath k b = Raise KeyError)
  /\ (is_Some (items b !! k) ->
        exists p, get_filepath k b = Ok p /\ is_text p = true).
Proof.
  intros b. pose proof (entries_built_feed ms empty_backend entries_built_empty) as Hb.
  fold b in Hb. clearbody b. unfold get_filepath, getitem. split.
  - intros ->. reflexivity.
  - intros [entry Hk]. rewrite Hk. cbn [obind].
    destruct (Hb k entry Hk) as (x & e & -> & Ht).
    rewrite entry_of_path. eauto.
Qed.

Lemma movie_is_stored : is_Some (items (feed [ItemList [movie]] empty_backend) !! 1).
Proof.
  destruct (make_item_dict_last [] [] movie empty_backend) as (e & d & _ & _ & Hi & _).
  - repeat constructor.
  - apply not_elem_of_nil.
  - exists (entry_of movie e). exact Hi.
Qed.

Lemma get_filepath_of_stored_items_witness :
  get_filepath 5 (feed [ItemList [movie]] empty_backend) = Raise KeyError
  /\ exists p,
       get_filepath 1 (feed [ItemList [movie]] empty_backend) = Ok p
       /\ is_text p = true.
Proof.
  split.
  - apply (get_filepath_of_stored_items [ItemList [movie]] 5). reflexivity.
  - apply (get_filepath_of_stored_items [ItemList [movie]] 1). exact movie_is_stored.
Defined.

Lemma fixup_attribute_not_unicode (q : string) (v : pyval) :
  is_unicode (snd (fixup_attribute q v)) = false /\ fst (fixup_attribute q v) = q.
Proof. destruct v; split; reflexivity. Qed.

(** X8: [daap_item_fixup] on any dictionary.  When the five keys it reads
    are present it returns six attributes, tagged minm, asfm, assz, astm,
    miid and aeMK in that order, none of which holds a unicode value, with
    the identifier under miid; when one of the five is missing it raises
    KeyError. *)
Theorem daap_item_fixup_reads_five_keys (k : Z) (entry : gmap string pyval) :
  (Forall (fun key => is_Some (entry !! key)) fixup_keys ->
     exists d,
       daap_item_fixup k entry = Ok d
       /\ fst <$> d = ["minm"; "asfm"; "assz"; "astm"; "miid"; "aeMK"]%string
       /\ Forall (fun a => is_unicode (snd a) = false) d
       /\ d !! 4%nat = Some ("miid"%string, PyInt k))
  /\ (forall key, key ∈ fixup_keys -> entry !! key = None ->
        daap_item_fixup k entry = Raise KeyError).
Proof.
  split.
  - intros Hall. unfold fixup_keys in Hall.
    repeat (apply Forall_cons in Hall as [[? ?] Hall]).
    unfold daap_item_fixup, mapping, fixup_loop, getitem.
    repeat match goal with H : entry !! _ = Some _ |- _ => rewrite H; clear H end.
    cbn [obind app].
    match goal with
    | |- context [py_eq ?a ?b] => destruct (py_eq a b)
    end;
      (eexists; split; [reflexivity |]; split;
       [cbn; rewrite !(proj2 (fixup_attribute_not_unicode _ _)); reflexivity |];
       split; [| reflexivity];
       repeat (apply Forall_cons; split;
               [first [apply fixup_attribute_not_unicode | reflexivity] |]);
       apply Forall_nil_2).
  - intros key Hkey Hnone. unfold fixup_keys in Hkey.
    unfold daap_item_fixup, mapping, fixup_loop, getitem.
    repeat (apply elem_of_cons in Hkey as [-> | Hkey]);
      [.. | apply elem_of_nil in Hkey; destruct Hkey];
      repeat match goal with
             | |- context [entry !! ?s] =>
                 destruct (entry !! s) eqn:?; cbn [obind]
             end;
      first [reflexivity | congruence].
Qed.

Lemma daap_item_fixup_reads_five_keys_witness :
  daap_item_fixup 9 (delete "size"%string
                       (entry_of movie (PyStr (chars "mp4"))))
  = Raise KeyError
  /\ exists d,
       daap_item_fixup 9 (entry_of movie (PyStr (chars "mp4"))) = Ok d
       /\ fst <$> d = ["minm"; "asfm"; "assz"; "astm"; "miid"; "aeMK"]%string
       /\ Forall (fun a => is_unicode (snd a) = false) d
       /\ d !! 4%nat = Some ("miid"%string, PyInt 9).
Proof.
  split.
  - apply (proj2 (daap_item_fixup_reads_five_keys 9
                    (delete "size"%string (entry_of movie (PyStr (chars "mp4")))))
             "size"%string).
    + unfold fixup_keys. do 2 apply list_elem_of_further. apply list_elem_of_here.
    + apply lookup_delete_eq.
  - apply (proj1 (daap_item_fixup_reads_five_keys 9
                    (entry_of movie (PyStr (chars "mp4"))))).
    unfold fixup_keys.
    repeat (apply Forall_cons; split; [vm_compute; eexists; reflexivity |]).
    apply Forall_nil_2.
Defined.

End QueryFacts.

(** ** Playlists *)

Section PlaylistFacts.
Import Backend Queries.

Lemma make_daap_playlist_result (x : PlaylistInfo) (b : backend) :
  make_daap_playlist x b
  = (Ok tt, set_daap_playlists (insert (playlist_id x) (playlist_attributes x)) b).
Proof. reflexivity. Qed.

Lemma make_daap_playlists_result (l : list PlaylistInfo) :
  forall b, make_daap_playlists l b = (Ok tt, set_daap_playlists (overlay l) b).
Proof.
  induction l as [| x l IH]; intros b.
  - destruct b; reflexivity.
  - unfold make_daap_playlists in *. cbn [for_each]. unfold bind.
    rewrite make_daap_playlist_result, IH. reflexivity.
Qed.

Lemma lookup_overlay (l : list PlaylistInfo) (k : Z) :
  forall m,
    overlay l m !! k
    = match overlay l ∅ !! k with
      | Some a => Some a
      | None => m !! k
      end.
Proof.
  induction l as [| x l IH]; intros m.
  - cbn. rewrite lookup_empty. reflexivity.
  - unfold overlay in *. cbn [foldl].
    rewrite (IH (<[playlist_id x := playlist_attributes x]> m)).
    rewrite (IH (<[playlist_id x := playlist_attributes x]> ∅)).
    destruct (foldl _ ∅ l !! k); [reflexivity |].
    destruct (decide (playlist_id x = k)) as [<- | Hne].
    + rewrite !lookup_insert_eq. reflexivity.
    + rewrite !lookup_insert_ne by exact Hne. rewrite lookup_empty. reflexivity.
Qed.

Lemma overlay_last (l1 l2 : list PlaylistInfo) (x : PlaylistInfo)
    (m : gmap Z (list attribute)) :
  playlist_id x ∉ playlist_id <$> l2 ->
  overlay (l1 ++ x :: l2) m !! playlist_id x = Some (playlist_attributes x).
Proof.
  intros Hlast. unfold overlay. rewrite foldl_app. cbn [foldl].
  generalize (foldl (fun m x => <[playlist_id x := playlist_attributes x]> m) m l1).
  intros m1.
  assert (Hkeep : forall l (m' : gmap Z (list attribute)),
             playlist_id x ∉ playlist_id <$> l ->
             foldl (fun m x => <[playlist_id x := playlist_attributes x]> m) m' l
               !! playlist_id x = m' !! playlist_id x).
  { clear. induction l as [| y l IH]; intros m' Hl; [reflexivity |].
    cbn [fmap list_fmap] in Hl. apply not_elem_of_cons in Hl as [Hy Hl].
    cbn [foldl]. rewrite (IH _ Hl). apply lookup_insert_ne. congruence. }
  rewrite (Hkeep l2 _ Hlast). apply lookup_insert_eq.
Qed.

Lemma overlay_member (l : list PlaylistInfo) (k : Z) :
  k ∈ playlist_id <$> l -> is_Some (overlay l ∅ !! k).
Proof.
  induction l as [| x l IH] using rev_ind; intros Hk.
  - cbn in Hk. apply elem_of_nil in Hk. destruct Hk.
  - unfold overlay in *. rewrite foldl_app. cbn [foldl].
    destruct (decide (playlist_id x = k)) as [<- | Hne].
    + rewrite lookup_insert_eq. eauto.
    + rewrite lookup_insert_ne by exact Hne. apply IH.
      rewrite fmap_app in Hk. apply elem_of_app in Hk as [Hk | Hk]; [exact Hk |].
      cbn in Hk. apply elem_of_cons in Hk as [-> | Hk]; [congruence |].
      apply elem_of_nil in Hk. destruct Hk.
Qed.

Lemma lookup_prune_other (l : list PlaylistInfo) (k : Z) :
  k ∉ playlist_id <$> l -> forall m, prune l m !! k = m !! k.
Proof.
  induction l as [| x l IH]; intros Hk m; [reflexivity |].
  cbn [fmap list_fmap] in Hk. apply not_elem_of_cons in Hk as [Hx Hl].
  unfold prune in *. cbn [foldl]. rewrite (IH Hl). apply lookup_delete_ne. congruence.
Qed.

Lemma lookup_prune_gone (l : list PlaylistInfo) (k : Z) :
  forall m, m !! k = None \/ k ∈ playlist_id <$> l -> prune l m !! k = None.
Proof.
  induction l as [| x l IH]; intros m [Hm | Hk].
  - exact Hm.
  - cbn in Hk. apply elem_of_nil in Hk. destruct Hk.
  - unfold prune in *. cbn [foldl]. apply IH. left.
    destruct (decide (playlist_id x = k)) as [<- | Hne].
    + apply lookup_delete_eq.
    + rewrite lookup_delete_ne by exact Hne. exact Hm.
  - unfold prune in *. cbn [foldl]. cbn [fmap list_fmap] in Hk.
    apply elem_of_cons in Hk as [-> | Hk].
    + apply IH. left. apply lookup_delete_eq.
    + apply IH. right. exact Hk.
Qed.

Lemma del_playlists_known (l : list PlaylistInfo) :
  forall b,
    NoDup (playlist_id <$> l) ->
    Forall (fun x => is_Some (daap_playlists b !! playlist_id x)) l ->
    for_each l del_playlist b = (Ok tt, set_daap_playlists (prune l) b).
Proof.
  induction l as [| x l IH]; intros b Hnd Hall.
  - destruct b; reflexivity.
  - cbn [fmap list_fmap] in Hnd. apply NoDup_cons in Hnd as [Hx Hnd].
    apply Forall_cons in Hall as [[a Ha] Hall].
    cbn [for_each]. unfold bind. rewrite (del_playlist_present x b a Ha).
    rewrite IH; [reflexivity | exact Hnd |].
    apply Forall_forall. intros y Hy. cbn [daap_playlists set_daap_playlists].
    rewrite lookup_delete_ne.
    + revert y Hy. apply Forall_forall. exact Hall.
    + intros Heq. apply Hx. rewrite Heq. apply list_elem_of_fmap_2. exact Hy.
Qed.

(** X9: [handle_playlist_added] never fails; afterwards the last playlist
    of the list with a given identifier is stored under it with the
    attributes minm (the title, encoded when unicode), miid and mper (the
    identifier), mpco 0 and mimc 0, replacing what was there. *)
Theorem added_playlist_is_stored
    (l1 l2 : list PlaylistInfo) (x : PlaylistInfo) (b : backend) :
  playlist_id x ∉ playlist_id <$> l2 ->
  fst (handle_playlist_added (l1 ++ x :: l2) b) = Ok tt
  /\ daap_playlists (snd (handle_playlist_added (l1 ++ x :: l2) b)) !! playlist_id x
     = Some [fixup_attribute "minm" (playlist_title x);
             ("miid"%string, PyInt (playlist_id x));
             ("mper"%string, PyInt (playlist_id x));
             ("mpco"%string, PyInt 0);
             ("mimc"%string, PyInt 0)].
Proof.
  intros Hlast. unfold handle_playlist_added.
  rewrite make_daap_playlists_result. split; [reflexivity |].
  cbn [snd daap_playlists set_daap_playlists]. apply overlay_last, Hlast.
Qed.

Lemma added_playlist_is_stored_witness :
  daap_playlists (snd (handle_playlist_added [road_trip; favourites] empty_backend)) !! 7
  = Some [("minm", PyStr (chars "Favourites")); ("miid", PyInt 7); ("mper", PyInt 7);
          ("mpco", PyInt 0); ("mimc", PyInt 0)]%string.
Proof.
  apply (added_playlist_is_stored [road_trip] [] favourites empty_backend).
  apply not_elem_of_nil.
Defined.

(** X10: for a list of distinct playlists that are all stored,
    [handle_playlist_changed] does exactly what [handle_playlist_added]
    does: delete-then-reinsert is an overwrite. *)
Theorem playlist_changed_overwrites (l : list PlaylistInfo) (b : backend) :
  NoDup (playlist_id <$> l) ->
  Forall (fun x => is_Some (daap_playlists b !! playlist_id x)) l ->
  handle_playlist_changed l b = handle_playlist_added l b.
Proof.
  intros Hnd Hall. unfold handle_playlist_changed, handle_playlist_added, bind.
  rewrite (del_playlists_known l b Hnd Hall), !make_daap_playlists_result.
  f_equal. destruct b as [it da pl pm]. unfold set_daap_playlists. cbn. f_equal.
  apply map_eq. intros k. rewrite (lookup_overlay l k (prune l pl)), (lookup_overlay l k pl).
  destruct (overlay l ∅ !! k) eqn:E; [reflexivity |].
  apply lookup_prune_other. intros Hk.
  destruct (overlay_member l k Hk) as [a Ha]. congruence.
Qed.

Lemma playlist_changed_overwrites_witness :
  handle_playlist_changed [favourites]
    (snd (handle_playlist_added [favourites; road_trip] empty_backend))
  = handle_playlist_added [favourites]
      (snd (handle_playlist_added [favourites; road_trip] empty_backend)).
Proof.
  apply (playlist_changed_overwrites [favourites]).
  - apply NoDup_singleton.
  - apply Forall_cons. split; [vm_compute; eexists; reflexivity | apply Forall_nil_2].
Defined.

(** X11: when [handle_playlist_changed] meets a playlist that is not stored,
    or one named a second time in the list, it raises KeyError and
    re-creates nothing: the stored playlists named before it in the list
    have been deleted and stay deleted. *)
Theorem playlist_changed_unknown_drops_earlier
    (pre post : list PlaylistInfo) (x : PlaylistInfo) (b : backend) :
  NoDup (playlist_id <$> pre) ->
  Forall (fun y => is_Some (daap_playlists b !! playlist_id y)) pre ->
  daap_playlists b !! playlist_id x = None \/ playlist_id x ∈ playlist_id <$> pre ->
  handle_playlist_changed (pre ++ x :: post) b
  = (Raise KeyError, set_daap_playlists (prune pre) b)
  /\ forall y, y ∈ pre ->
       daap_playlists (snd (handle_playlist_changed (pre ++ x :: post) b))
         !! playlist_id y = None.
Proof.
  intros Hnd Hall Hx.
  assert (Hres : handle_playlist_changed (pre ++ x :: post) b
                 = (Raise KeyError, set_daap_playlists (prune pre) b)).
  { unfold handle_playlist_changed. unfold bind at 1. rewrite for_each_app.
    unfold bind. rewrite (del_playlists_known pre b Hnd Hall).
    cbn [for_each]. unfold bind. rewrite del_playlist_absent; [reflexivity |].
    cbn [daap_playlists set_daap_playlists]. apply lookup_prune_gone, Hx. }
  split; [exact Hres |]. intros y Hy. rewrite Hres.
  cbn [snd daap_playlists set_daap_playlists]. apply lookup_prune_gone. right.
  apply list_elem_of_fmap_2, Hy.
Qed.

Lemma playlist_changed_unknown_drops_earlier_witness :
  daap_playlists
    (snd (handle_playlist_changed [favourites; road_trip]
            (snd (handle_playlist_added [favourites] empty_backend)))) !! 7
  = None
  /\ fst (handle_playlist_changed [favourites; favourites]
           (snd (handle_playlist_added [favourites] empty_backend)))
     = Raise KeyError.
Proof.
  assert (Hnd : NoDup (playlist_id <$> [favourites])) by apply NoDup_singleton.
  assert (Hall : Forall (fun y => is_Some
                    (daap_playlists (snd (handle_playlist_added [favourites] empty_backend))
                       !! playlist_id y)) [favourites])
    by (apply Forall_cons; split; [vm_compute; eexists; reflexivity | apply Forall_nil_2]).
  split.
  - exact (proj2 (playlist_changed_unknown_drops_earlier [favourites] [] road_trip
                    (snd (handle_playlist_added [favourites] empty_backend)) Hnd Hall
                    (or_introl eq_refl))
             favourites (list_elem_of_here _ _)).
  - exact (f_equal fst
             (proj1 (playlist_changed_unknown_drops_earlier [favourites] [] favourites
                       (snd (handle_playlist_added [favourites] empty_backend)) Hnd Hall
                       (or_intror (list_elem_of_here _ _))))).
Defined.

(** X12: the playlist notifications write to [daap_playlists] only: the
    two item tables and the playlist-to-item map are left as they were,
    whether the handler returns or raises.  The members of a playlist are
    thus never refreshed by a notification. *)
Theorem notification_writes_playlists_only (n : notification) (b : backend) :
  items (snd (notify n b)) = items b
  /\ daapitems (snd (notify n b)) = daapitems b
  /\ playlist_item_map (snd (notify n b)) = playlist_item_map b.
Proof.
  set (P := fun s : backend =>
              items s = items b /\ daapitems s = daapitems b
              /\ playlist_item_map s = playlist_item_map b).
  assert (Hb : P b) by (repeat split).
  assert (Hmk : forall x s, P s -> P (snd (make_daap_playlist x s))).
  { intros x s Hs. rewrite make_daap_playlist_result. exact Hs. }
  assert (Hrm : forall x s, P s -> P (snd (del_playlist x s))).
  { intros x s Hs. unfold del_playlist, delitem.
    destruct (daap_playlists s !! playlist_id x); exact Hs. }
  change (P (snd (notify n b))).
  destruct n as [l | l | l]; cbn [notify].
  - apply (for_each_preserves P make_daap_playlist l Hmk b Hb).
  - unfold handle_playlist_changed, bind.
    pose proof (for_each_preserves P del_playlist l Hrm b Hb) as H1.
    destruct (for_each l del_playlist b) as [[[] | ex] b1]; cbn [snd] in *;
      [| exact H1].
    apply (for_each_preserves P make_daap_playlist l Hmk b1 H1).
  - apply (for_each_preserves P del_playlist l Hrm b Hb).
Qed.

Lemma get_playlists_loop_spec (b : backend) (kvs : list (Z * list attribute)) :
  (forall k a, (k, a) ∈ kvs -> daap_playlists b !! k = Some a) ->
  forall acc,
    get_playlists_loop (fst <$> kvs) b acc
    = Ok (acc ++ ((fun kv => ("mlit"%string, snd kv)) <$> kvs)).
Proof.
  induction kvs as [| [k a] kvs IH]; intros Hkvs acc.
  - cbn. rewrite app_nil_r. reflexivity.
  - cbn [fmap list_fmap fst get_playlists_loop]. unfold getitem.
    rewrite (Hkvs k a) by apply list_elem_of_here. cbn [obind].
    rewrite IH.
    + rewrite <- app_assoc. reflexivity.
    + intros k' a' Hin. apply Hkvs. apply list_elem_of_further, Hin.
Qed.

(** X13: [get_playlists] never raises; it returns one [('mlit', attributes)]
    pair per stored playlist, and every pair it returns holds the attributes
    of a stored playlist. *)
Theorem get_playlists_lists_stored (b : backend) :
  exists ps,
    get_playlists b = Ok ps
    /\ length ps = size (daap_playlists b)
    /\ (forall k a, daap_playlists b !! k = Some a -> ("mlit"%string, a) ∈ ps)
    /\ (forall p, p ∈ ps ->
          fst p = "mlit"%string /\ exists k, daap_playlists b !! k = Some (snd p)).
Proof.
  unfold get_playlists. rewrite get_playlists_loop_spec.
  - eexists. split; [reflexivity |]. cbn [app]. split; [| split].
    + rewrite length_fmap. apply length_map_to_list.
    + intros k a Hk. apply list_elem_of_fmap. exists (k, a).
      split; [reflexivity |]. apply elem_of_map_to_list, Hk.
    + intros p Hp. apply list_elem_of_fmap in Hp as ([k a] & -> & Hin).
      split; [reflexivity |]. exists k. apply elem_of_map_to_list, Hin.
  - intros k a Hin. apply elem_of_map_to_list, Hin.
Qed.

Lemma get_playlists_lists_stored_witness :
  exists ps,
    get_playlists (snd (handle_playlist_added [favourites; road_trip] empty_backend))
    = Ok ps
    /\ ("mlit"%string, playlist_attributes road_trip) ∈ ps.
Proof.
  destruct (get_playlists_lists_stored
              (snd (handle_playlist_added [favourites; road_trip] empty_backend)))
    as (ps & Hps & _ & Hin & _).
  exists ps. split; [exact Hps |]. apply (Hin 8). reflexivity.
Defined.

Lemma refill_member (view : Z -> list Z) (ks : list Z) (k : Z) :
  k ∈ ks -> forall m, refill view ks m !! k = Some (view k).
Proof.
  induction ks as [| k' ks IH] using rev_ind; intros Hk m.
  - apply elem_of_nil in Hk. destruct Hk.
  - unfold refill in *. rewrite foldl_app. cbn [foldl].
    destruct (decide (k' = k)) as [-> | Hne].
    + apply lookup_insert_eq.
    + rewrite lookup_insert_ne by exact Hne. apply IH.
      apply elem_of_app in Hk as [Hk | Hk]; [exact Hk |].
      apply elem_of_cons in Hk as [-> | Hk]; [congruence |].
      apply elem_of_nil in Hk. destruct Hk.
Qed.

Lemma refill_other (view : Z -> list Z) (ks : list Z) (k : Z) :
  k ∉ ks -> forall m, refill view ks m !! k = m !! k.
Proof.
  induction ks as [| k' ks IH]; intros Hk m; [reflexivity |].
  apply not_elem_of_cons in Hk as [Hne Hk].
  unfold refill in *. cbn [foldl]. rewrite (IH Hk). apply lookup_insert_ne. congruence.
Qed.

Lemma refill_result (view : Z -> list Z) (ks : list Z) :
  forall b,
    for_each ks (fun playlist_id =>
      modify (set_playlist_item_map (insert playlist_id (view playlist_id)))) b
    = (Ok tt, set_playlist_item_map (refill view ks) b).
Proof.
  induction ks as [| k ks IH]; intros b.
  - destruct b; reflexivity.
  - cbn [for_each]. unfold bind, modify. rewrite IH. reflexivity.
Qed.

Lemma keys_of_map (m : gmap Z (list attribute)) (k : Z) :
  k ∈ fst <$> map_to_list m <-> is_Some (m !! k).
Proof.
  split.
  - intros Hk. apply list_elem_of_fmap in Hk as ([k' a] & -> & Hin).
    exists a. apply elem_of_map_to_list, Hin.
  - intros [a Ha]. apply list_elem_of_fmap. exists (k, a).
    split; [reflexivity |]. apply elem_of_map_to_list, Ha.
Qed.

(** X14: [populate_playlists] never fails.  Afterwards every saved playlist
    is stored, every stored playlist, saved now or stored before, has its
    members as the database lists them, and the entries of the
    playlist-to-item map for identifiers without a stored playlist are left
    as they were. *)
Theorem populate_playlists_fills_members
    (saved : list PlaylistInfo) (view : Z -> list Z) (b : backend) :
  let b' := snd (populate_playlists saved view b) in
  fst (populate_playlists saved view b) = Ok tt
  /\ (forall x, x ∈ saved -> is_Some (daap_playlists b' !! playlist_id x))
  /\ (forall k, is_Some (daap_playlists b' !! k) ->
        playlist_item_map b' !! k = Some (view k))
  /\ (forall k, daap_playlists b' !! k = None ->
        playlist_item_map b' !! k = playlist_item_map b !! k).
Proof.
  unfold populate_playlists, bind, gets. rewrite make_daap_playlists_result.
  rewrite refill_result. cbn [fst snd].
  cbn [daap_playlists playlist_item_map set_daap_playlists set_playlist_item_map].
  split; [reflexivity |]. split; [| split].
  - intros x Hx. rewrite lookup_overlay.
    destruct (overlay_member saved (playlist_id x) (list_elem_of_fmap_2 _ _ _ Hx))
      as [a ->]. eauto.
  - intros k Hk. apply refill_member, keys_of_map, Hk.
  - intros k Hk. apply refill_other. intros Hin. apply keys_of_map in Hin.
    rewrite Hk in Hin. destruct Hin as [a Ha]. discriminate Ha.
Qed.

Lemma populate_playlists_fills_members_witness :
  playlist_item_map
    (snd (populate_playlists [favourites; road_trip]
            (fun k => if k =? 7 then [1; 2] else [2]) empty_backend)) !! 7
  = Some [1; 2].
Proof.
  destruct (populate_playlists_fills_members [favourites; road_trip]
              (fun k => if k =? 7 then [1; 2] else [2]) empty_backend)
    as (_ & _ & Hmembers & _).
  apply (Hmembers 7). vm_compute. eexists. reflexivity.
Defined.

End PlaylistFacts.


(** ** More on the manager: traces and reconciliation *)

Section ProtocolFacts.
Import Manager Shape Protocol.

Lemma replay_app (tr1 tr2 : list event) :
  forall o,
    replay o (tr1 ++ tr2)
    = match replay o tr1 with
      | Some o' => replay o' tr2
      | None => None
      end.
Proof.
  induction tr1 as [| ev tr1 IH]; intros o; [reflexivity |].
  cbn [app replay]. destruct (follow o ev); [apply IH | reflexivity].
Qed.

Ltac cases_of_env e :=
  destruct e as [sm sd nm [hs | []] [rf | []]]; destruct sm, sd.

Lemma replay_twiddle (e : env) (w : world) :
  shaped w ->
  replay nothing (trace w) = Some (held w) ->
  replay nothing (trace (snd (twiddle_sharing e w))) = Some (held (snd (twiddle_sharing e w))).
Proof.
  intros Hs Hr.
  destruct Hs as [Hw | h Hw | h r Hw]; rewrite Hw in Hr |- *;
    cbn in Hr; revert Hr; generalize (trace w); intros tr Hr;
    cases_of_env e; cbn;
    rewrite ?replay_app, ?Hr;
    repeat (first [ progress cbn
                  | rewrite bool_decide_eq_true_2 by reflexivity ]);
    reflexivity.
Qed.

Lemma replay_run (es : list env) :
  forall w,
    shaped w ->
    replay nothing (trace w) = Some (held w) ->
    replay nothing (trace (run es w)) = Some (held (run es w)).
Proof.
  induction es as [| e es IH]; intros w Hs Hr; cbn [run]; [exact Hr |].
  apply IH; [apply shaped_twiddle, Hs | apply replay_twiddle; assumption].
Qed.

(** X15: the calls a manager makes always come in order, and its
    attributes say exactly what it holds.  Over the whole life of a manager:
    a server is made only when none is up, its thread is started right for
    it, mDNS is registered only while server and thread are up, the server
    is shut down only after the registration was withdrawn, and the thread
    is joined after the shutdown; at any time the server, thread and
    registration not yet released are the ones in [self.server],
    [self.thread] and [self.mdns_ref]. *)
Theorem manager_calls_come_in_order (es : list env) :
  replay nothing (trace (run es init)) = Some (held (run es init)).
Proof. apply replay_run; [apply shaped_init | reflexivity]. Qed.

(** X16: the flags and the attributes of a manager agree in every state it
    can reach: [self.server] and [self.thread] exist exactly when [sharing]
    is set, for the same server, and [self.mdns_ref] exists exactly when
    [discoverable] is set. *)
Theorem flags_match_attributes (es : list env) :
  let w := run es init in
  sharing w = present (server w)
  /\ thread w = server w
  /\ discoverable w = present (mdns_ref w).
Proof.
  intros w. pose proof (shaped_reachable es) as Hs. fold w in Hs. clearbody w.
  destruct Hs as [Hw | h Hw | h r Hw]; rewrite Hw; repeat split.
Qed.

(** X17: when libdaap can bind and [twiddle_sharing] returns normally, the
    manager matches the preferences: it shares exactly when SHARE_MEDIA is
    set and is discoverable exactly when both preferences are set; calling
    [twiddle_sharing] again with the same preferences then does nothing at
    all. *)
Theorem reconciliation_settles (es : list env) (e : env) (h : Z) :
  let w := run es init in
  let w' := snd (twiddle_sharing e w) in
  make_daap_server e = Ok h ->
  fst (twiddle_sharing e w) = Ok tt ->
  sharing w' = SHARE_MEDIA e
  /\ discoverable w' = SHARE_MEDIA e && SHARE_DISCOVERABLE e
  /\ twiddle_sharing e w' = (Ok tt, w').
Proof.
  intros w. pose proof (shaped_reachable es) as Hs. fold w in Hs. clearbody w.
  intros w' Hmk Hok. subst w'. revert Hok.
  destruct Hs as [Hw | h' Hw | h' r Hw]; rewrite Hw; generalize (trace w); intros tr;
    destruct e as [sm sd nm mk [rf | ex]]; cbn in Hmk; subst mk;
    destruct sm, sd; cbn; intros Hok;
    first [discriminate Hok | repeat split].
Qed.

Lemma reconciliation_settles_witness :
  sharing (snd (twiddle_sharing prefs_on_discoverable (run [prefs_off] init))) = true
  /\ discoverable (snd (twiddle_sharing prefs_on_discoverable (run [prefs_off] init)))
     = true
  /\ twiddle_sharing prefs_on_discoverable
       (snd (twiddle_sharing prefs_on_discoverable (run [prefs_off] init)))
     = (Ok tt, snd (twiddle_sharing prefs_on_discoverable (run [prefs_off] init))).
Proof.
  exact (reconciliation_settles [prefs_off] prefs_on_discoverable 1 eq_refl eq_refl).
Defined.

(** X18: with libdaap working, [twiddle_sharing] raises in one situation
    only: sharing is switched off on a manager that shares but is not
    discoverable.  It then raises AttributeError, makes no call and leaves
    the manager as it was, still sharing. *)
Theorem switch_off_when_hidden_is_the_only_failure
    (es : list env) (e : env) (h r : Z) :
  let w := run es init in
  make_daap_server e = Ok h ->
  install_mdns e = Ok r ->
  (sharing w = true -> discoverable w = false -> SHARE_MEDIA e = false ->
     twiddle_sharing e w = (Raise AttributeError, w))
  /\ (forall ex, fst (twiddle_sharing e w) = Raise ex ->
        sharing w = true /\ discoverable w = false /\ SHARE_MEDIA e = false).
Proof.
  intros w. pose proof (shaped_reachable es) as Hs. fold w in Hs. clearbody w.
  intros Hmk Hin.
  destruct Hs as [Hw | h' Hw | h' r' Hw]; rewrite Hw; generalize (trace w); intros tr;
    destruct e as [sm sd nm mk im]; cbn in Hmk, Hin; subst mk im;
    destruct sm, sd; cbn;
    (split; [intros H1 H2 H3; first [discriminate | reflexivity]
            | intros ex Hex; first [discriminate Hex | repeat split]]).
Qed.

Lemma switch_off_when_hidden_is_the_only_failure_witness :
  twiddle_sharing prefs_off (run [prefs_on_hidden] init)
  = (Raise AttributeError, run [prefs_on_hidden] init).
Proof.
  exact (proj1 (switch_off_when_hidden_is_the_only_failure [prefs_on_hidden] prefs_off
                  1 2 eq_refl eq_refl) eq_refl eq_refl eq_refl).
Defined.

(** X19: when [libdaap.install_mdns] raises while the manager shares,
    [twiddle_sharing] raises the same exception and the manager keeps
    sharing without being discoverable: the server and its thread stay up
    and no registration is recorded. *)
Theorem failed_registration_keeps_sharing (es : list env) (e : env) (ex : exn) :
  let w := snd (twiddle_sharing e (run es init)) in
  SHARE_MEDIA e = true ->
  SHARE_DISCOVERABLE e = true ->
  install_mdns e = Raise ex ->
  sharing w = true ->
  discoverable (run es init) = false ->
  fst (twiddle_sharing e (run es init)) = Raise ex
  /\ discoverable w = false
  /\ mdns_ref w = None
  /\ present (server w) = true
  /\ present (thread w) = true.
Proof.
  pose proof (shaped_reachable es) as Hs. revert Hs.
  generalize (run es init). intros w0 Hs w Hsm Hsd Him. subst w.
  destruct Hs as [Hw | h' Hw | h' r' Hw]; rewrite Hw; generalize (trace w0); intros tr;
    destruct e as [sm sd nm [hs | []] im]; cbn in Hsm, Hsd, Him; subst sm sd im;
    cbn; intros Hon Hd; first [discriminate | repeat split].
Qed.

Lemma failed_registration_keeps_sharing_witness :
  fst (twiddle_sharing prefs_on_no_multicast (run [] init)) = Raise OSError
  /\ discoverable (snd (twiddle_sharing prefs_on_no_multicast (run [] init))) = false
  /\ mdns_ref (snd (twiddle_sharing prefs_on_no_multicast (run [] init))) = None
  /\ present (server (snd (twiddle_sharing prefs_on_no_multicast (run [] init)))) = true
  /\ present (thread (snd (twiddle_sharing prefs_on_no_multicast (run [] init)))) = true.
Proof.
  exact (failed_registration_keeps_sharing [] prefs_on_no_multicast OSError
           eq_refl eq_refl eq_refl eq_refl eq_refl).
Defined.

End ProtocolFacts.


(** ** More on the relay: every request is answered by its own callback *)

Section LedgerFacts.
Import HttpAuth RelayInv Ledger.
Context {C : Type}.
Implicit Types (r : relay C) (cs : list (call C)).

Lemma settled_start : settled (@start C).
Proof. split; intros id Hid; [cbn in Hid; lia | reflexivity]. Qed.

Lemma settled_step (c : call C) r :
  consistent r -> settled r -> settled (snd (step c r)).
Proof.
  intros [Hn Hi Hp Hu Hc] [Hs Hneg].
  assert (Hreg : forall cb ev,
             (forall id, is_call_of id ev = false) ->
             settled
               {| requestIdGenerator := requestIdGenerator r + 1;
                  waitingHTTPAuthCallbacks :=
                    <[requestIdGenerator r := cb]> (waitingHTTPAuthCallbacks r);
                  log := log r ++ [ev] |}).
  { intros cb ev Hno. split; intros id;
      cbn [requestIdGenerator waitingHTTPAuthCallbacks log].
    - intros Hid Hnone. rewrite times_called_snoc, Hno, Nat.add_0_r.
      destruct (decide (requestIdGenerator r = id)) as [<- | Hne].
      + rewrite lookup_insert_eq in Hnone. discriminate Hnone.
      + rewrite lookup_insert_ne in Hnone by exact Hne. apply Hs; [lia | exact Hnone].
    - intros Hid. rewrite times_called_snoc, Hno, Nat.add_0_r. apply Hneg, Hid. }
  destruct c as [cb host path | cb host path scheme | id_ hdr]; cbn [step].
  - apply Hreg. reflexivity.
  - apply Hreg. reflexivity.
  - unfold handle_http_auth_response, bind, pop.
    destruct (waitingHTTPAuthCallbacks r !! id_) as [cb |] eqn:Hlook; cbn [snd];
      [| split; assumption].
    destruct (Hp id_ (ex_intro _ cb Hlook)) as [Hrange Hzero].
    split; intros id;
      cbn [emit modify snd requestIdGenerator waitingHTTPAuthCallbacks log].
    + intros Hid Hnone. rewrite times_called_snoc. cbn [is_call_of].
      destruct (decide (id_ = id)) as [<- | Hne].
      * rewrite Hzero, bool_decide_eq_true_2 by reflexivity. reflexivity.
      * rewrite lookup_delete_ne in Hnone by exact Hne.
        rewrite bool_decide_eq_false_2 by exact Hne.
        rewrite Nat.add_0_r. apply Hs; assumption.
    + intros Hid. rewrite times_called_snoc. cbn [is_call_of].
      rewrite bool_decide_eq_false_2 by lia.
      rewrite Nat.add_0_r. apply Hneg, Hid.
Qed.

Lemma settled_run cs : forall r, consistent r -> settled r -> settled (run cs r).
Proof.
  induction cs as [| c cs IH]; intros r Hr Hs; cbn; [exact Hs |].
  apply IH; [apply consistent_step, Hr | apply settled_step; assumption].
Qed.

(** X20: the relay's books balance.  After any sequence of calls, an
    identifier below the counter is either still pending or has had its
    callback called exactly once, never both and never neither; for an
    identifier that was never handed out nothing is pending and nothing was
    called. *)
Theorem every_request_pending_or_answered cs (id : Z) :
  let r := run cs start in
  (times_called id (log r)
   + if bool_decide (is_Some (waitingHTTPAuthCallbacks r !! id)) then 1 else 0)%nat
  = if bool_decide (0 <= id < requestIdGenerator r) then 1%nat else 0%nat.
Proof.
  intros r.
  pose proof (consistent_reachable cs) as Hr.
  pose proof (settled_run cs start consistent_start settled_start) as [Hs Hneg].
  fold r in Hr, Hs, Hneg. clearbody r. destruct Hr as [Hn Hi Hp Hu Hc].
  destruct (waitingHTTPAuthCallbacks r !! id) as [cb |] eqn:Hlook.
  - destruct (Hp id (ex_intro _ cb Hlook)) as [Hrange Hzero].
    rewrite Hzero, bool_decide_eq_true_2 by eauto.
    rewrite bool_decide_eq_true_2 by exact Hrange. reflexivity.
  - rewrite (bool_decide_eq_false_2 (is_Some None)) by (intros [? ?]; discriminate).
    rewrite Nat.add_0_r. case_bool_decide as Hrange.
    + apply Hs; assumption.
    + destruct (decide (requestIdGenerator r <= id)) as [Hge | Hlt].
      * apply Hu, Hge.
      * apply Hneg. lia.
Qed.

Lemma keeps_callback (id : Z) (cb : C) cs :
  forall r,
    waitingHTTPAuthCallbacks r !! id = Some cb ->
    id < requestIdGenerator r ->
    Forall (fun c => answers id c = false) cs ->
    waitingHTTPAuthCallbacks (run cs r) !! id = Some cb.
Proof.
  induction cs as [| c cs IH]; intros r Hcb Hid Hall; [exact Hcb |].
  apply Forall_cons in Hall as [Hc Hall]. cbn [run].
  destruct c as [cb' host path | cb' host path scheme | id_ hdr]; cbn [step].
  - apply IH; cbn; [rewrite lookup_insert_ne by lia; exact Hcb | lia | exact Hall].
  - apply IH; cbn; [rewrite lookup_insert_ne by lia; exact Hcb | lia | exact Hall].
  - cbn in Hc. apply bool_decide_eq_false_1 in Hc.
    unfold handle_http_auth_response, bind, pop.
    destruct (waitingHTTPAuthCallbacks r !! id_) eqn:Hlook; cbn [snd].
    + apply IH; cbn; [rewrite lookup_delete_ne by exact Hc; exact Hcb | exact Hid
                     | exact Hall].
    + apply IH; assumption.
Qed.

(** X21: a response reaches the callback it was meant for.  A callback
    registered by [find_http_auth] or [askForHTTPAuth], at any point, under
    the identifier the counter then shows, is the one called, with the
    header of the response, by the first later response for that
    identifier, whatever other requests and responses came in between. *)
Theorem response_calls_registered_callback
    cs cs' (cb : C) (host path scheme hdr : pyval) :
  let r := run cs start in
  let id := requestIdGenerator r in
  Forall (fun c => answers id c = false) cs' ->
  (let r1 := run cs' (snd (find_http_auth cb host path r)) in
   handle_http_auth_response id hdr r1
   = (Ok tt,
      {| requestIdGenerator := requestIdGenerator r1;
         waitingHTTPAuthCallbacks := delete id (waitingHTTPAuthCallbacks r1);
         log := log r1 ++ [Called id cb hdr] |}))
  /\ (let r1 := run cs' (snd (askForHTTPAuth cb host path scheme r)) in
      handle_http_auth_response id hdr r1
      = (Ok tt,
         {| requestIdGenerator := requestIdGenerator r1;
            waitingHTTPAuthCallbacks := delete id (waitingHTTPAuthCallbacks r1);
            log := log r1 ++ [Called id cb hdr] |})).
Proof.
  intros r id Hall.
  assert (Hgo : forall r0,
             waitingHTTPAuthCallbacks r0 !! id = Some cb ->
             id < requestIdGenerator r0 ->
             handle_http_auth_response id hdr (run cs' r0)
             = (Ok tt,
                {| requestIdGenerator := requestIdGenerator (run cs' r0);
                   waitingHTTPAuthCallbacks :=
                     delete id (waitingHTTPAuthCallbacks (run cs' r0));
                   log := log (run cs' r0) ++ [Called id cb hdr] |})).
  { intros r0 Hcb Hid. unfold handle_http_auth_response, bind, pop.
    rewrite (keeps_callback id cb cs' r0 Hcb Hid Hall). reflexivity. }
  split; cbv zeta; apply Hgo; cbn; first [apply lookup_insert_eq | lia].
Qed.

End LedgerFacts.

Lemma response_calls_registered_callback_witness :
  HttpAuth.handle_http_auth_response 2 RelayInv.header
    (HttpAuth.run [HttpAuth.Response 0 RelayInv.header;
                   HttpAuth.Find 13%nat RelayInv.host RelayInv.path]
       (snd (HttpAuth.find_http_auth 12%nat RelayInv.host RelayInv.path
               (HttpAuth.run RelayInv.two_requests_one_answer HttpAuth.start))))
  = (Ok tt,
     {| HttpAuth.requestIdGenerator := 4;
        HttpAuth.waitingHTTPAuthCallbacks := {[1 := 11%nat; 3 := 13%nat]};
        HttpAuth.log :=
          HttpAuth.log
            (HttpAuth.run (RelayInv.two_requests_one_answer
                           ++ [HttpAuth.Find 12%nat RelayInv.host RelayInv.path;
                               HttpAuth.Response 0 RelayInv.header;
                               HttpAuth.Find 13%nat RelayInv.host RelayInv.path])
               HttpAuth.start)
          ++ [HttpAuth.Called 2 12%nat RelayInv.header] |}).
Proof.
  pose proof (proj1 (response_calls_registered_callback
                       RelayInv.two_requests_one_answer
                       [HttpAuth.Response 0 RelayInv.header;
                        HttpAuth.Find 13%nat RelayInv.host RelayInv.path]
                       12%nat RelayInv.host RelayInv.path RelayInv.path RelayInv.header
                       ltac:(repeat constructor))) as H.
  cbv zeta in H. etransitivity; [exact H |]. vm_compute. reflexivity.
Defined.

(** ** Items by playlist, and text on the wire *)

Section WireFacts.
Import Backend Queries.

(** X22: what [get_items] does depends on the playlist identifier and on
    whether the table of DAAP items is empty, never on what the playlist
    tables hold.  Without an identifier (None, or 0) it returns the whole
    table; with one it returns the empty list when the table is empty and
    raises AttributeError as soon as one item is stored. *)
Theorem get_items_by_playlist (playlist_id : pyval) (b : backend) :
  (truthy playlist_id = false ->
     get_items playlist_id b = Ok (WholeDict (daapitems b)))
  /\ (truthy playlist_id = true -> daapitems b = ∅ ->
        get_items playlist_id b = Ok (Selected []))
  /\ (truthy playlist_id = true -> daapitems b <> ∅ ->
        get_items playlist_id b = Raise AttributeError).
Proof.
  split; [| split].
  - intros Ht. unfold get_items. rewrite Ht. reflexivity.
  - intros Ht Hempty. unfold get_items. rewrite Ht, Hempty, map_to_list_empty.
    reflexivity.
  - apply get_items_nonempty_raises.
Qed.

Lemma get_items_by_playlist_witness :
  get_items (PyInt 0) (feed [ItemList [movie]] empty_backend)
  = Ok (WholeDict (daapitems (feed [ItemList [movie]] empty_backend)))
  /\ get_items (PyInt 7)
       (snd (populate_playlists [favourites] (fun _ => [1]) empty_backend))
     = Ok (Selected [])
  /\ get_items (PyInt 7)
       (feed [ItemList [movie]]
          (snd (populate_playlists [favourites] (fun _ => [1]) empty_backend)))
     = Raise AttributeError.
Proof.
  split; [| split].
  - apply (get_items_by_playlist (PyInt 0)). reflexivity.
  - apply (get_items_by_playlist (PyInt 7)); reflexivity.
  - apply (get_items_by_playlist (PyInt 7)); [reflexivity |].
    intros Hempty.
    assert (H : daapitems
                  (feed [ItemList [movie]]
                     (snd (populate_playlists [favourites] (fun _ => [1])
                             empty_backend))) !! 1 = None)
      by (rewrite Hempty; apply lookup_empty).
    vm_compute in H. discriminate H.
Defined.

Lemma lor_below (a b n : Z) :
  0 < n -> 0 <= a < 2 ^ n -> 0 <= b < 2 ^ n -> 0 <= Z.lor a b < 2 ^ n.
Proof.
  intros Hn Ha Hb. split; [apply Z.lor_nonneg; lia |].
  assert (Hlog : forall x, 0 <= x < 2 ^ n -> Z.log2 x < n).
  { intros x Hx. destruct (Z.eq_dec x 0) as [-> | Hx0]; [cbn; lia |].
    apply Z.log2_lt_pow2; lia. }
  destruct (Z.eq_dec (Z.lor a b) 0) as [-> | Hne]; [lia |].
  assert (Hpos : 0 < Z.lor a b)
    by (pose proof (proj2 (Z.lor_nonneg a b) (conj (proj1 Ha) (proj1 Hb))); lia).
  apply Z.log2_lt_pow2; [exact Hpos |].
  rewrite Z.log2_lor by lia. apply Z.max_lub_lt; apply Hlog; assumption.
Qed.

Lemma low_six_bits (c : Z) : 0 <= Z.lor 128 (Z.land c 63) < 256.
Proof.
  change 256 with (2 ^ 8). apply lor_below; [lia | cbn; lia |].
  change 63 with (Z.ones 6). rewrite Z.land_ones by lia.
  pose proof (Z.mod_pos_bound c (2 ^ 6) eq_refl). cbn in *. lia.
Qed.

Lemma lead_bits (m c k : Z) :
  0 <= m < 256 -> 0 <= k -> 0 <= c < 256 * 2 ^ k ->
  0 <= Z.lor m (Z.shiftr c k) < 256.
Proof.
  intros Hm Hk Hc. change 256 with (2 ^ 8). apply lor_below; [lia | exact Hm |].
  rewrite Z.shiftr_div_pow2 by exact Hk.
  assert (Hp : 0 < 2 ^ k) by (apply Z.pow_pos_nonneg; lia).
  split; [apply Z.div_pos; lia |].
  apply Z.div_lt_upper_bound; [exact Hp |]. change (2 ^ 8) with 256. lia.
Qed.

Lemma utf8_encode_cp_bytes (c : Z) :
  0 <= c < 1114112 ->
  Forall (fun byte => 0 <= byte < 256) (utf8_encode_cp c)
  /\ (1 <= length (utf8_encode_cp c) <= 4)%nat
  /\ (c < 128 -> utf8_encode_cp c = [c]).
Proof.
  intros Hc. unfold utf8_encode_cp.
  destruct (c <? 128) eqn:E1; [apply Z.ltb_lt in E1 | apply Z.ltb_ge in E1].
  { split; [repeat constructor; lia | split; [cbn; lia | reflexivity]]. }
  destruct (c <? 2048) eqn:E2; [apply Z.ltb_lt in E2 | apply Z.ltb_ge in E2].
  { split; [| split; [cbn; lia | lia]].
    repeat (apply Forall_cons; split); try apply Forall_nil_2;
      first [apply low_six_bits | apply lead_bits; cbn; lia]. }
  destruct (c <? 65536) eqn:E3; [apply Z.ltb_lt in E3 | apply Z.ltb_ge in E3].
  { split; [| split; [cbn; lia | lia]].
    repeat (apply Forall_cons; split); try apply Forall_nil_2;
      first [apply low_six_bits | apply lead_bits; cbn; lia]. }
  split; [| split; [cbn; lia | lia]].
  repeat (apply Forall_cons; split); try apply Forall_nil_2;
    first [apply low_six_bits | apply lead_bits; cbn; lia].
Qed.

(** X23: a unicode value goes on the wire as a byte string.  For code points
    in the Unicode range, every element of the encoded attribute is a byte,
    each code point gives between one and four of them, and text that is
    pure ASCII is passed on character for character. *)
Theorem unicode_attribute_is_bytes (q : string) (u : list Z) :
  Forall (fun c => 0 <= c < 1114112) u ->
  exists s,
    fixup_attribute q (PyUnicode u) = (q, PyStr s)
    /\ Forall (fun byte => 0 <= byte < 256) s
    /\ (length u <= length s <= 4 * length u)%nat
    /\ (is_ascii u = true -> s = u).
Proof.
  intros Hu. exists (encode_utf8 u). split; [reflexivity |]. unfold encode_utf8.
  induction Hu as [| c u Hc Hu IH]; [repeat split; constructor |].
  destruct IH as (Hb & Hl & Ha).
  destruct (utf8_encode_cp_bytes c Hc) as (Hcb & Hcl & Hca).
  cbn [flat_map]. split; [| split].
  - apply Forall_app. split; assumption.
  - rewrite length_app. cbn [length]. lia.
  - cbn [is_ascii forallb]. intros [H1 H2]%andb_prop.
    apply Z.ltb_lt in H1. rewrite (Hca H1), (Ha H2). reflexivity.
Qed.

Lemma unicode_attribute_is_bytes_witness :
  exists s,
    fixup_attribute "minm" (PyUnicode (chars "Movie")) = ("minm"%string, PyStr s)
    /\ s = chars "Movie".
Proof.
  destruct (unicode_attribute_is_bytes "minm" (chars "Movie")) as (s & Hs & _ & _ & Ha).
  - unfold chars. cbn. repeat constructor; lia.
  - exists s. split; [exact Hs |]. apply Ha. reflexivity.
Defined.

End WireFacts.
